(** * The Listonic integration: a shallow embedding and its properties

    The development follows the three source files of the repository:

    - [custom_components/listonic/__init__.py]: set-up and tear-down of a
      config entry, the options listener and the [rename_list] service;
    - [tests/test_diagnostics.py]: the behaviour required of the diagnostics
      snapshot, whose module [diagnostics.py] is modelled from the tests;
    - [scripts/check_credentials.py]: the maintenance script that keeps the
      OAuth credentials of [const.py] up to date.

    Python objects that are mutated in place live in an explicit store;
    functions that may raise return a [Result]. *)

From Stdlib Require Import Ascii SpecFloat.
From stdpp Require Import gmap strings list pretty.

Set Warnings "-register-all".
Local Open Scope Z_scope.

(** ** Python values *)

(** The values that travel through service-call data and through the
    diagnostics snapshot: [None], [bool], [int], [float], [str], [list] and
    [dict] with string keys.  A [float] is an IEEE 754 number: a zero, an
    infinity, a NaN, or [m * 2^e] with a sign, which is [true] for a negative
    number. *)
Inductive PyVal :=
| PyNone
| PyBool (b : bool)
| PyInt (z : Z)
| PyFloat (f : spec_float)
| PyStr (s : string)
| PyList (l : list PyVal)
| PyDict (d : list (string * PyVal)).

(** [m * 2^e] with its sign, when [e] is not negative. *)
Definition float_scaled (s : bool) (m : positive) (e : Z) : Z :=
  (if s then - Z.pos m else Z.pos m) * 2 ^ e.

(** The integer that [int(f)] gives, the float rounded towards zero; [None]
    for an infinity and for a NaN, of which [int] raises. *)
Definition float_trunc (f : spec_float) : option Z :=
  match f with
  | S754_zero _ => Some 0
  | S754_finite s m e =>
      if decide (0 ≤ e) then Some (float_scaled s m e)
      else Some (Z.quot (if s then - Z.pos m else Z.pos m) (2 ^ (- e)))
  | S754_infinity _ | S754_nan => None
  end.

(** The integer a float is equal to, if it is equal to one: [1.0 == 1]. *)
Definition float_integer (f : spec_float) : option Z :=
  match f with
  | S754_zero _ => Some 0
  | S754_finite s m e =>
      if decide (0 ≤ e) then Some (float_scaled s m e)
      else if decide (Z.pos m `mod` 2 ^ (- e) = 0)
      then Some (Z.quot (if s then - Z.pos m else Z.pos m) (2 ^ (- e)))
      else None
  | S754_infinity _ | S754_nan => None
  end.

(** [f >= n] for a float [f] and an [int] [n], which Python compares by
    their exact values; a NaN is not above anything. *)
Definition float_ge (f : spec_float) (n : Z) : bool :=
  match f with
  | S754_zero _ => bool_decide (n ≤ 0)
  | S754_finite s m e =>
      if decide (0 ≤ e) then bool_decide (n ≤ float_scaled s m e)
      else bool_decide (n * 2 ^ (- e) ≤ (if s then - Z.pos m else Z.pos m))
  | S754_infinity s => negb s
  | S754_nan => false
  end.

(** ** Exceptions *)

(** The exception classes the code names and those the runtime and the
    libraries raise in it ([ReError] is [re.error], [VolInvalid] is
    [vol.Invalid]), and two families for the rest: [OtherException] for any
    other subclass of [Exception], and [BaseExceptionOnly] for those that
    derive from [BaseException] alone (such as [asyncio.CancelledError]). *)
Inductive ExnClass :=
| ListonicAuthError
| ConfigEntryAuthFailed
| ConfigEntryNotReady
| KeyError
| TypeError
| AttributeError
| OverflowError
| FileNotFoundError
| ReError
| VolInvalid
| ServiceNotFound
| OtherException (name : string)
| BaseExceptionOnly (name : string).

(** An exception instance: its class, its message and the exception it was
    raised [from].  The message is [str(err)] for the exceptions that
    [__init__.py] builds and for those its collaborators raise (the answers
    of the remote service, of the platforms and of the network).  For an
    exception that the interpreter or a library raises inside the model the
    message only names the cause, the missing key for a [KeyError]; it is
    not the text that Python gives. *)
Inductive Exn :=
| MkExn (cls : ExnClass) (msg : string) (cause : option Exn).

Definition exn_class (e : Exn) : ExnClass := let 'MkExn c _ _ := e in c.
Definition exn_str (e : Exn) : string := let 'MkExn _ m _ := e in m.
Definition exn_cause (e : Exn) : option Exn := let 'MkExn _ _ c := e in c.

(** [isinstance(e, Exception)] *)
Definition is_Exception (e : Exn) : bool :=
  match exn_class e with
  | BaseExceptionOnly _ => false
  | _ => true
  end.

(** [isinstance(e, ListonicAuthError)] *)
Definition is_ListonicAuthError (e : Exn) : bool :=
  match exn_class e with
  | ListonicAuthError => true
  | _ => false
  end.

(** [isinstance(e, ConfigEntryAuthFailed)] *)
Definition is_ConfigEntryAuthFailed (e : Exn) : bool :=
  match exn_class e with
  | ConfigEntryAuthFailed => true
  | _ => false
  end.

(** [isinstance(e, ConfigEntryNotReady)] *)
Definition is_ConfigEntryNotReady (e : Exn) : bool :=
  match exn_class e with
  | ConfigEntryNotReady => true
  | _ => false
  end.

(** [isinstance(e, vol.Invalid)] *)
Definition is_Invalid (e : Exn) : bool :=
  match exn_class e with
  | VolInvalid => true
  | _ => false
  end.

(** ** Results and the state-and-exception monad *)

Inductive Result (A : Type) :=
| Return (a : A)
| Raise (e : Exn).
Arguments Return {A} a.
Arguments Raise {A} e.

Definition raised {A} (r : Result A) : option Exn :=
  match r with
  | Return _ => None
  | Raise e => Some e
  end.

(** A computation over a mutable state [S]: the state it leaves behind is
    kept when it raises, as in Python. *)
Definition M (S A : Type) : Type := S → Result A * S.

Definition ret {S A} (a : A) : M S A := λ s, (Return a, s).
Definition throw {S A} (e : Exn) : M S A := λ s, (Raise e, s).
Definition bind {S A B} (m : M S A) (k : A → M S B) : M S B :=
  λ s, match m s with
       | (Return a, s') => k a s'
       | (Raise e, s') => (Raise e, s')
       end.
Definition get {S} : M S S := λ s, (Return s, s).
Definition gets {S A} (f : S → A) : M S A := λ s, (Return (f s), s).
Definition modify {S} (f : S → S) : M S unit := λ s, (Return tt, f s).

(** The [except] clauses of a [try]: the first clause whose class test the
    exception passes handles it; with none, the exception goes on. *)
Fixpoint dispatch {S A} (clauses : list ((Exn → bool) * (Exn → M S A)))
    (e : Exn) : M S A :=
  match clauses with
  | [] => throw e
  | (handles, h) :: rest => if handles e then h e else dispatch rest e
  end.

(** [try: m  except C1 as err: h1 err  except C2 as err: h2 err ...] *)
Definition try_except {S A} (m : M S A)
    (clauses : list ((Exn → bool) * (Exn → M S A))) : M S A :=
  λ s, match m s with
       | (Return a, s') => (Return a, s')
       | (Raise e, s') => dispatch clauses e s'
       end.

(** Lifts a result that was computed outside the state. *)
Definition lift {S A} (r : Result A) : M S A := λ s, (r, s).

#[global] Instance M_ret {S} : MRet (M S) := λ A, ret.
#[global] Instance M_bind {S} : MBind (M S) := λ A B k m, bind m k.

(** ** Python dictionaries *)

(** A [dict] keeps its keys in insertion order, and [values()] and [items()]
    follow it: an association list whose operations are those of [dict]. *)
Module Dict.
Abbreviation t K V := (list (K * V)) (only parsing).

Section dict.
Context {K V : Type} `{EqDecision K}.

Definition keys (d : list (K * V)) : list K := d.*1.
Definition values (d : list (K * V)) : list V := d.*2.

(** [d.get(k)] *)
Fixpoint get (k : K) (d : list (K * V)) : option V :=
  match d with
  | [] => None
  | (k', v) :: d' => if decide (k = k') then Some v else get k d'
  end.

(** [k in d] *)
Definition contains (k : K) (d : list (K * V)) : bool :=
  bool_decide (is_Some (get k d)).

(** [d[k] = v]: an existing key keeps its place. *)
Fixpoint set (k : K) (v : V) (d : list (K * V)) : list (K * V) :=
  match d with
  | [] => [(k, v)]
  | (k', v') :: d' =>
      if decide (k = k') then (k, v) :: d' else (k', v') :: set k v d'
  end.

(** [d.pop(k)], for a key that is present. *)
Fixpoint remove (k : K) (d : list (K * V)) : list (K * V) :=
  match d with
  | [] => []
  | (k', v') :: d' =>
      if decide (k = k') then d' else (k', v') :: remove k d'
  end.

(** Keys are unique in a dictionary. *)
Definition wf (d : list (K * V)) : Prop := NoDup (keys d).
End dict.
End Dict.

(** ** Data model *)

(** [api.ListonicItem], with the fields the tests construct it from. *)
Module ListonicItem.
Record t := mk { id : Z; name : string; is_checked : bool }.
End ListonicItem.

(** [api.ListonicList] *)
Module ListonicList.
Record t := mk {
  id : Z;
  name : string;
  items : list ListonicItem.t;
  is_archived : bool
}.
End ListonicList.

(** A naive [datetime.datetime]. *)
Record datetime := {
  year : N; month : N; day : N;
  hour : N; minute : N; second : N; microsecond : N
}.

(** [datetime.timedelta], as its length in seconds. *)
Record timedelta := { total_seconds : Z }.

(** The number of days of a [timedelta] lies between [-999999999] and
    [999999999]. *)
Definition timedelta_max_days : Z := 999999999.

(** Whether [n] seconds, which are [n // 86400] days and a rest, are within
    the range of [timedelta]. *)
Definition timedelta_in_range (n : Z) : Prop :=
  - timedelta_max_days ≤ n `div` 86400 ≤ timedelta_max_days.

(** [timedelta(seconds=n)] for an [int] [n]: [OverflowError] outside the
    range. *)
#[global] Instance timedelta_in_range_dec (n : Z)
    : Decision (timedelta_in_range n).
Proof. unfold timedelta_in_range. apply _. Defined.

Definition timedelta_of_seconds (n : Z) : Result timedelta :=
  if decide (timedelta_in_range n) then Return {| total_seconds := n |}
  else Raise (MkExn OverflowError "days out of range for timedelta" None).

(** [api.ListonicApiClient]: the credentials it was built with and the
    tokens it holds. *)
Record ListonicApiClient := {
  client_email : string;
  client_password : string;
  _token : option string;
  _refresh_token : option string
}.

(** [ListonicApiClient(email=..., password=..., session=...)] *)
Definition new_client (email password : string) : ListonicApiClient :=
  {| client_email := email; client_password := password;
     _token := None; _refresh_token := None |}.

(** [coordinator.ListonicDataUpdateCoordinator]: the state a
    [DataUpdateCoordinator] exposes.  [data] is [None] until a refresh has
    succeeded. *)
Record ListonicDataUpdateCoordinator := {
  client : ListonicApiClient;
  data : option (Dict.t Z ListonicList.t);
  last_update_success : bool;
  last_update_success_time : option datetime;
  update_interval : timedelta
}.

(** Coordinators are shared objects: the config entry and [hass.data] hold
    references to the same one.  A reference is a position in the store of
    Home Assistant; one that points outside the store denotes no
    coordinator. *)
Definition ref := nat.

(** What a slot of [hass.data[DOMAIN]] may hold. *)
Inductive PyObj :=
| ObjCoordinator (r : ref)
| ObjOther (v : PyVal).

(** [entry.data] of a Listonic config entry. *)
Record EntryData := { email : string; password : string }.

Inductive UpdateListener := _async_update_listener_ref.
Inductive UnloadCallback := remove_update_listener (l : UpdateListener).

(** [homeassistant.config_entries.ConfigEntry] *)
Record ConfigEntry := {
  entry_id : string;
  entry_data : EntryData;
  options : gmap string Z;
  runtime_data : option ref;
  update_listeners : list UpdateListener;
  _on_unload : list UnloadCallback
}.

Inductive LogLevel := DEBUG | ERROR.

(** What the integration does to its collaborators, in the order it does
    it: log records, calls of [hass.services.async_register] and
    [async_remove], and invocations of [coordinator.async_update_list]. *)
Inductive Event :=
| EvLog (level : LogLevel) (msg : string) (args : list PyVal)
| EvRegister (domain service : string)
| EvRemove (domain service : string)
| EvUpdateList (r : ref) (list_id name : PyVal).

(** [homeassistant.core.HomeAssistant]: [hass.data], the names in
    [hass.services], the coordinator objects, and the events so far. *)
Record HomeAssistant := {
  hass_data : gmap string (Dict.t string PyObj);
  services : gset (string * string);
  store : list ListonicDataUpdateCoordinator;
  trace : list Event
}.

Definition set_hass_data (f : gmap string (Dict.t string PyObj) →
    gmap string (Dict.t string PyObj)) (h : HomeAssistant) : HomeAssistant :=
  {| hass_data := f (hass_data h); services := services h;
     store := store h; trace := trace h |}.

Definition set_services (f : gset (string * string) → gset (string * string))
    (h : HomeAssistant) : HomeAssistant :=
  {| hass_data := hass_data h; services := f (services h);
     store := store h; trace := trace h |}.

Definition set_store (f : list ListonicDataUpdateCoordinator →
    list ListonicDataUpdateCoordinator) (h : HomeAssistant) : HomeAssistant :=
  {| hass_data := hass_data h; services := services h;
     store := f (store h); trace := trace h |}.

Definition emit (ev : Event) (h : HomeAssistant) : HomeAssistant :=
  {| hass_data := hass_data h; services := services h;
     store := store h; trace := trace h ++ [ev] |}.

Definition set_runtime_data (r : option ref) (e : ConfigEntry) : ConfigEntry :=
  {| entry_id := entry_id e; entry_data := entry_data e;
     options := options e; runtime_data := r;
     update_listeners := update_listeners e; _on_unload := _on_unload e |}.

(** [coordinator.update_interval = td] *)
Definition set_update_interval (td : timedelta)
    (c : ListonicDataUpdateCoordinator) : ListonicDataUpdateCoordinator :=
  {| client := client c; data := data c;
     last_update_success := last_update_success c;
     last_update_success_time := last_update_success_time c;
     update_interval := td |}.

(** A fresh Home Assistant: nothing stored, no service registered. *)
Definition hass_init : HomeAssistant :=
  {| hass_data := ∅; services := ∅; store := []; trace := [] |}.

(** ** Constants and collaborators that live outside [__init__.py] *)

(** The names [__init__.py] imports from [const.py]. *)
Class Const := {
  DOMAIN : string;
  CONF_EMAIL : string;
  CONF_PASSWORD : string;
  CONF_SCAN_INTERVAL : string;
  DEFAULT_SCAN_INTERVAL : Z
}.

(** The two entry points of [coordinator.py] that [__init__.py] uses: the
    constructor, and [async_update_list], which may change the coordinator
    and may raise. *)
Class CoordinatorApi := {
  new_coordinator :
    ListonicApiClient → ConfigEntry → Z → ListonicDataUpdateCoordinator;
  async_update_list :
    ListonicDataUpdateCoordinator → PyVal → PyVal →
    ListonicDataUpdateCoordinator * option Exn
}.

(** Two conversions of the interpreter that are taken as given: [int(s)]
    for a string [s], where [None] stands for [ValueError], and [str(f)] for
    a float [f]. *)
Class Builtins := {
  int_of_str : string → option Z;
  str_of_float : spec_float → string
}.

(** [homeassistant.const.ATTR_NAME] *)
Definition ATTR_NAME : string := "name".
Definition ATTR_LIST_ID : string := "list_id".
Definition SERVICE_RENAME_LIST : string := "rename_list".

(** ** Validation of service data *)

Module vol.
(** A validator returns the validated value or raises: [vol.Invalid] for a
    value it refuses, and whatever else the conversion it applies raises. *)
Definition Validator : Type := PyVal → Result PyVal.

Definition Invalid (msg : string) : Exn := MkExn VolInvalid msg None.

(** [vol.Coerce(int)]: [int(v)], where [ValueError] (a string that is no
    numeral, a NaN) and [TypeError] become [Invalid].  [int] of an infinity
    raises [OverflowError], which [Coerce] does not catch. *)
Definition Coerce_int `{Builtins} : Validator := λ v,
  match v with
  | PyInt z => Return (PyInt z)
  | PyBool b => Return (PyInt (Z.b2z b))
  | PyFloat f =>
      match f with
      | S754_infinity _ =>
          Raise (MkExn OverflowError "cannot convert float infinity to integer"
                   None)
      | _ =>
          match float_trunc f with
          | Some z => Return (PyInt z)
          | None => Raise (Invalid "expected int")
          end
      end
  | PyStr s =>
      match int_of_str s with
      | Some z => Return (PyInt z)
      | None => Raise (Invalid "expected int")
      end
  | PyNone | PyList _ | PyDict _ => Raise (Invalid "expected int")
  end.

(** [vol.Range(min=m)]: [Invalid] unless [v >= m]; comparing a non-number
    with an [int] raises [TypeError], which [Range] turns into [Invalid]
    too. *)
Definition Range_min (m : Z) : Validator := λ v,
  match v with
  | PyInt z =>
      if decide (z < m) then Raise (Invalid "value must be at least the minimum")
      else Return v
  | PyBool b =>
      if decide (Z.b2z b < m)
      then Raise (Invalid "value must be at least the minimum")
      else Return v
  | PyFloat f =>
      if float_ge f m then Return v
      else Raise (Invalid "value must be at least the minimum")
  | PyNone | PyStr _ | PyList _ | PyDict _ =>
      Raise (Invalid "invalid value or type")
  end.

(** [vol.All(v1, v2)]: the validators in sequence. *)
Definition All (v1 v2 : Validator) : Validator := λ v,
  match v1 v with
  | Return v' => v2 v'
  | Raise e => Raise e
  end.

(** One pass over the items of the data, as [Schema] does for a mapping
    whose keys are all [Required]: a key outside the schema and a value the
    key's validator refuses are errors, which are collected while the pass
    goes on ([None] at its end); an exception that is no [Invalid] ends the
    pass at once. *)
Fixpoint validate_items (schema : list (string * Validator))
    (d : Dict.t string PyVal) : Result (option (Dict.t string PyVal)) :=
  match d with
  | [] => Return (Some [])
  | (k, v) :: d' =>
      match Dict.get k schema with
      | None =>
          match validate_items schema d' with
          | Return _ => Return None
          | Raise e => Raise e
          end
      | Some validator =>
          match validator v with
          | Return v' =>
              match validate_items schema d' with
              | Return out => Return ((λ out, (k, v') :: out) <$> out)
              | Raise e => Raise e
              end
          | Raise err =>
              if is_Invalid err then
                match validate_items schema d' with
                | Return _ => Return None
                | Raise e => Raise e
                end
              else Raise err
          end
      end
  end.

(** [vol.Schema({vol.Required(k1): v1, ...})(d)] *)
Definition Schema (schema : list (string * Validator))
    (d : Dict.t string PyVal) : Result (Dict.t string PyVal) :=
  match validate_items schema d with
  | Return (Some out) =>
      if forallb (λ k, Dict.contains k d) (Dict.keys schema)
      then Return out
      else Raise (Invalid "required key not provided")
  | Return None => Raise (Invalid "invalid service data")
  | Raise e => Raise e
  end.
End vol.

Module cv.
(** [homeassistant.helpers.config_validation.positive_int], which is
    [vol.All(vol.Coerce(int), vol.Range(min=0))]. *)
Definition positive_int `{Builtins} : vol.Validator :=
  vol.All vol.Coerce_int (vol.Range_min 0).

(** [homeassistant.helpers.config_validation.string]: refuses [None], lists
    and dictionaries, keeps a [str], and takes [str(v)] of other values. *)
Definition string `{Builtins} : vol.Validator := λ v,
  match v with
  | PyNone => Raise (vol.Invalid "string value is None")
  | PyStr s => Return (PyStr s)
  | PyList _ | PyDict _ => Raise (vol.Invalid "value should be a string")
  | PyBool b => Return (PyStr (if b then "True" else "False"))
  | PyInt z => Return (PyStr (pretty z))
  | PyFloat f => Return (PyStr (str_of_float f))
  end.
End cv.

Definition SERVICE_RENAME_LIST_SCHEMA `{Builtins}
    (d : Dict.t string PyVal) : Result (Dict.t string PyVal) :=
  vol.Schema [(ATTR_LIST_ID, cv.positive_int); (ATTR_NAME, cv.string)] d.

(** [homeassistant.core.ServiceCall] *)
Module ServiceCall.
Record t := mk { data : Dict.t string PyVal }.
End ServiceCall.

(** What the remote service and the host answer during one set-up: the
    outcome of [client.authenticate()], of the coordinator's first refresh
    (each may change the object it is called on, and may raise), and of
    forwarding the entry to its platforms. *)
Record SetupEnv := {
  authenticate : ListonicApiClient → ListonicApiClient * option Exn;
  async_config_entry_first_refresh :
    ListonicDataUpdateCoordinator → ListonicDataUpdateCoordinator * option Exn;
  async_forward_entry_setups : option Exn
}.

(** ** [__init__.py] *)

Section integration.
Context `{Const, CoordinatorApi, Builtins}.

(** [d[k]] on a dictionary with string keys. *)
Definition getitem {S V} (k : string) (d : Dict.t string V) : M S V :=
  match Dict.get k d with
  | Some v => mret v
  | None => throw (MkExn KeyError k None)
  end.

(** [hass.data[DOMAIN]] *)
Definition hass_data_domain : M HomeAssistant (Dict.t string PyObj) := λ h,
  match hass_data h !! DOMAIN with
  | Some reg => (Return reg, h)
  | None => (Raise (MkExn KeyError DOMAIN None), h)
  end.

(** [k in coordinator.data] *)
Definition py_in (k : PyVal) (d : option (Dict.t Z ListonicList.t))
    : Result bool :=
  match d with
  | None =>
      Raise (MkExn TypeError "argument of type 'NoneType' is not iterable" None)
  | Some d =>
      match k with
      | PyInt z => Return (Dict.contains z d)
      | PyBool b => Return (Dict.contains (Z.b2z b) d)
      | PyFloat f =>
          match float_integer f with
          | Some z => Return (Dict.contains z d)
          | None => Return false
          end
      | PyNone | PyStr _ => Return false
      | PyList _ | PyDict _ => Raise (MkExn TypeError "unhashable type" None)
      end
  end.

(** [await coordinator.async_update_list(list_id, name=name)] on the
    coordinator that [r] refers to. *)
Definition call_async_update_list (r : ref) (list_id name : PyVal)
    : M HomeAssistant unit := λ h,
  match store h !! r with
  | Some c =>
      let '(c', err) := async_update_list c list_id name in
      let h' := set_store (<[r := c']>) (emit (EvUpdateList r list_id name) h) in
      (match err with None => Return tt | Some e => Raise e end, h')
  | None => (Return tt, h)
  end.

(** The loop of [async_rename_list] over [hass.data[DOMAIN].values()], from
    the values still to visit, and the statement that follows the loop.  A
    value that is no coordinator fails the [isinstance] test and is passed
    over. *)
Fixpoint async_rename_list_loop (list_id name : PyVal) (values : list PyObj)
    : M HomeAssistant unit :=
  match values with
  | [] =>
      modify (emit (EvLog ERROR "List %s not found in any Listonic account"
                      [list_id]))
  | ObjOther _ :: rest => async_rename_list_loop list_id name rest
  | ObjCoordinator r :: rest =>
      c ← gets (λ h, store h !! r);
      match c with
      | None => async_rename_list_loop list_id name rest
      | Some c =>
          found ← lift (py_in list_id (data c));
          if found : bool then call_async_update_list r list_id name
          else async_rename_list_loop list_id name rest
      end
  end.

(** The handler of the [rename_list] service. *)
Definition async_rename_list (call : ServiceCall.t) : M HomeAssistant unit :=
  list_id ← getitem ATTR_LIST_ID (ServiceCall.data call);
  name ← getitem ATTR_NAME (ServiceCall.data call);
  reg ← hass_data_domain;
  async_rename_list_loop list_id name (Dict.values reg).

(** [hass.services.async_call(DOMAIN, SERVICE_RENAME_LIST, service_data)]:
    the service must be registered, the data pass its schema, and the
    handler runs on the validated data. *)
Definition async_call_rename_list (service_data : Dict.t string PyVal)
    : M HomeAssistant unit :=
  registered ← gets (λ h,
    bool_decide ((DOMAIN, SERVICE_RENAME_LIST) ∈ services h));
  if registered : bool then
    processed ← lift (SERVICE_RENAME_LIST_SCHEMA service_data);
    async_rename_list (ServiceCall.mk processed)
  else throw (MkExn ServiceNotFound SERVICE_RENAME_LIST None).

(** A method call on a local object: the object after the call, unless the
    call raised. *)
Definition call_method {S O} (f : O → O * option Exn) (o : O) : M S O :=
  match f o with
  | (o', None) => mret o'
  | (_, Some e) => throw e
  end.

(** [ListonicDataUpdateCoordinator(hass, client, entry, scan_interval=...)]:
    a new object in the store. *)
Definition alloc (c : ListonicDataUpdateCoordinator)
    : M (HomeAssistant * ConfigEntry) ref := λ '(h, e),
  (Return (length (store h)), (set_store (λ st, st ++ [c]) h, e)).

(** [await coordinator.async_config_entry_first_refresh()] *)
Definition first_refresh (env : SetupEnv) (r : ref)
    : M (HomeAssistant * ConfigEntry) unit := λ '(h, e),
  match store h !! r with
  | Some c =>
      let '(c', err) := async_config_entry_first_refresh env c in
      (match err with None => Return tt | Some x => Raise x end,
       (set_store (<[r := c']>) h, e))
  | None => (Return tt, (h, e))
  end.

(** [hass.data.setdefault(DOMAIN, {})[entry_id] = coordinator] *)
Definition store_coordinator (eid : string) (r : ref)
    : HomeAssistant → HomeAssistant :=
  set_hass_data (λ d,
    <[DOMAIN := Dict.set eid (ObjCoordinator r) (default [] (d !! DOMAIN))]> d).

(** [entry.async_on_unload(entry.add_update_listener(_async_update_listener))] *)
Definition register_update_listener (e : ConfigEntry) : ConfigEntry :=
  {| entry_id := entry_id e; entry_data := entry_data e;
     options := options e; runtime_data := runtime_data e;
     update_listeners := update_listeners e ++ [_async_update_listener_ref];
     _on_unload :=
       _on_unload e ++ [remove_update_listener _async_update_listener_ref] |}.

(** [hass.services.async_register(DOMAIN, SERVICE_RENAME_LIST, ...)] *)
Definition async_register (h : HomeAssistant) : HomeAssistant :=
  emit (EvRegister DOMAIN SERVICE_RENAME_LIST)
    (set_services (λ s, {[(DOMAIN, SERVICE_RENAME_LIST)]} ∪ s) h).

(** [hass.services.async_remove(DOMAIN, SERVICE_RENAME_LIST)] *)
Definition async_remove (h : HomeAssistant) : HomeAssistant :=
  emit (EvRemove DOMAIN SERVICE_RENAME_LIST)
    (set_services (λ s, s ∖ {[(DOMAIN, SERVICE_RENAME_LIST)]}) h).

(** [entry.options.get(CONF_SCAN_INTERVAL, DEFAULT_SCAN_INTERVAL)] *)
Definition scan_interval_of (e : ConfigEntry) : Z :=
  default DEFAULT_SCAN_INTERVAL (options e !! CONF_SCAN_INTERVAL).

Definition async_setup_entry (env : SetupEnv)
    : M (HomeAssistant * ConfigEntry) bool :=
  entry ← gets snd;
  client ← try_except
    (call_method (authenticate env)
       (new_client (email (entry_data entry)) (password (entry_data entry))))
    [(is_ListonicAuthError, λ err,
       throw (MkExn ConfigEntryAuthFailed "Invalid credentials" (Some err)))];
  let scan_interval := scan_interval_of entry in
  coordinator ← alloc (new_coordinator client entry scan_interval);
  try_except (first_refresh env coordinator)
    [(is_ConfigEntryAuthFailed, λ err, throw err);
     (is_Exception, λ err,
       throw (MkExn ConfigEntryNotReady
                ("Failed to fetch initial data: " +:+ exn_str err)
                (Some err)))];;
  modify (prod_map id (set_runtime_data (Some coordinator)));;
  modify (prod_map (store_coordinator (entry_id entry) coordinator) id);;
  modify (prod_map id register_update_listener);;
  has_service ← gets (λ s,
    bool_decide ((DOMAIN, SERVICE_RENAME_LIST) ∈ services s.1));
  (if has_service : bool then mret tt
   else modify (prod_map async_register id));;
  match async_forward_entry_setups env with
  | Some e => throw e
  | None => mret true
  end.

(** The options listener.  The interval is built before it is assigned:
    when [timedelta] raises, the coordinator keeps the interval it had. *)
Definition _async_update_listener : M (HomeAssistant * ConfigEntry) unit :=
  entry ← gets snd;
  match runtime_data entry with
  | None => throw (MkExn AttributeError "runtime_data" None)
  | Some coordinator =>
      let scan_interval := scan_interval_of entry in
      interval ← lift (timedelta_of_seconds scan_interval);
      modify (prod_map
        (set_store (λ st, match st !! coordinator with
           | Some c => <[coordinator := set_update_interval interval c]> st
           | None => st
           end)) id);;
      modify (prod_map
        (emit (EvLog DEBUG "Updated scan interval to %s seconds"
                 [PyInt scan_interval])) id)
  end.

(** [hass.data[DOMAIN].pop(entry_id)] *)
Definition pop_coordinator (eid : string) : M (HomeAssistant * ConfigEntry) unit :=
  λ '(h, e),
  match hass_data h !! DOMAIN with
  | None => (Raise (MkExn KeyError DOMAIN None), (h, e))
  | Some reg =>
      if Dict.contains eid reg
      then (Return tt,
            (set_hass_data (<[DOMAIN := Dict.remove eid reg]>) h, e))
      else (Raise (MkExn KeyError eid None), (h, e))
  end.

(** [unload_platforms] is what
    [await hass.config_entries.async_unload_platforms(entry, PLATFORMS)]
    gives. *)
Definition async_unload_entry (unload_platforms : Result bool)
    : M (HomeAssistant * ConfigEntry) bool :=
  unload_ok ← lift unload_platforms;
  (if unload_ok : bool then
     entry ← gets snd;
     pop_coordinator (entry_id entry);;
     reg ← (λ '(h, e),
       match hass_data h !! DOMAIN with
       | Some reg => (Return reg, (h, e))
       | None => (Raise (MkExn KeyError DOMAIN None), (h, e))
       end);
     match reg with
     | [] =>
         modify (prod_map (set_hass_data (delete DOMAIN)) id);;
         modify (prod_map async_remove id)
     | _ :: _ => mret tt
     end
   else mret tt);;
  mret unload_ok.

(** The coordinators that [hass.data[DOMAIN]] refers to, in the order of
    its values. *)
Definition live_coordinators (h : HomeAssistant) : list ref :=
  omap (λ o, match o with ObjCoordinator r => Some r | ObjOther _ => None end)
    (Dict.values (default [] (hass_data h !! DOMAIN))).

(** Whether the coordinator that [r] refers to has a data mapping. *)
Definition has_data (h : HomeAssistant) (r : ref) : bool :=
  match store h !! r with
  | Some c => bool_decide (is_Some (data c))
  | None => false
  end.

(** Whether the list [z] is in the data mapping of the coordinator that [r]
    refers to. *)
Definition holds_list (h : HomeAssistant) (z : Z) (r : ref) : bool :=
  match store h !! r with
  | Some c =>
      match data c with
      | Some d => Dict.contains z d
      | None => false
      end
  | None => false
  end.

(** *** The registry of live coordinators *)

Definition is_EvRegister (ev : Event) : bool :=
  match ev with EvRegister _ _ => true | _ => false end.

Definition is_EvRemove (ev : Event) : bool :=
  match ev with EvRemove _ _ => true | _ => false end.

(** How often the service was registered, and how often removed. *)
Definition registrations (t : list Event) : nat :=
  length (filter (λ ev, is_EvRegister ev = true) t).
Definition removals (t : list Event) : nat :=
  length (filter (λ ev, is_EvRemove ev = true) t).

(** The invariant of the registry [hass.data[DOMAIN]]: it is absent or holds
    at least one entry, under distinct entry ids, each a coordinator of the
    store; the [rename_list] service is registered exactly when the registry
    is present; and the service has been registered once more than removed
    when it is registered, and as often as removed when it is not. *)
Record registry_inv (h : HomeAssistant) : Prop := {
  inv_nonempty : hass_data h !! DOMAIN ≠ Some [];
  inv_wf : ∀ reg, hass_data h !! DOMAIN = Some reg → Dict.wf reg;
  inv_service :
    (DOMAIN, SERVICE_RENAME_LIST) ∈ services h ↔ is_Some (hass_data h !! DOMAIN);
  inv_refs : ∀ r, r ∈ live_coordinators h → is_Some (store h !! r);
  inv_trace :
    registrations (trace h) =
      (removals (trace h) +
       if bool_decide ((DOMAIN, SERVICE_RENAME_LIST) ∈ services h)
       then 1 else 0)%nat
}.

(** One call of the host into the integration: the set-up or the unloading
    of an entry, whatever the remote service and the platforms answer, a
    call of the service, or a change of options. *)
Inductive step : HomeAssistant → HomeAssistant → Prop :=
| step_setup (env : SetupEnv) (h : HomeAssistant) (e : ConfigEntry) :
    step h (async_setup_entry env (h, e)).2.1
| step_unload (unload_platforms : Result bool) (h : HomeAssistant)
    (e : ConfigEntry) :
    step h (async_unload_entry unload_platforms (h, e)).2.1
| step_call (service_data : Dict.t string PyVal) (h : HomeAssistant) :
    step h (async_call_rename_list service_data h).2
| step_options (h : HomeAssistant) (e : ConfigEntry) :
    step h (_async_update_listener (h, e)).2.1.

(** The states Home Assistant can be in, from a fresh start. *)
Definition reachable (h : HomeAssistant) : Prop := rtc step hass_init h.

(** The entry of the registry under [eid], if any. *)
Definition registered_coordinator (h : HomeAssistant) (eid : string)
    : option PyObj :=
  hass_data h !! DOMAIN ≫= Dict.get eid.

(** What the second half of [async_setup_entry] makes of Home Assistant:
    the coordinator [r] stored under the entry id, and the service
    registered unless it was. *)
Definition registered_state (eid : string) (r : ref) (h : HomeAssistant)
    : HomeAssistant :=
  let h' := store_coordinator eid r h in
  if bool_decide ((DOMAIN, SERVICE_RENAME_LIST) ∈ services h') then h'
  else async_register h'.

(** What [async_unload_entry] makes of Home Assistant once the platforms
    are unloaded, [reg] being [hass.data[DOMAIN]] before: the entry popped,
    and with the last entry the registry and the service removed. *)
Definition unloaded_state (eid : string) (reg : Dict.t string PyObj)
    (h : HomeAssistant) : HomeAssistant :=
  match Dict.remove eid reg with
  | [] =>
      async_remove
        (set_hass_data (delete DOMAIN) (set_hass_data (<[DOMAIN := []]>) h))
  | _ :: _ => set_hass_data (<[DOMAIN := Dict.remove eid reg]>) h
  end.

End integration.

(** ** The diagnostics snapshot *)

(** [d[k]] on a value that is a dictionary. *)
Definition py_get (k : string) (v : PyVal) : option PyVal :=
  match v with
  | PyDict d => Dict.get k d
  | _ => None
  end.

(** [v[k1][k2]...] *)
Definition py_path (ks : list string) (v : PyVal) : option PyVal :=
  foldl (λ acc k, acc ≫= py_get k) (Some v) ks.

(** [n] in decimal, padded with zeros on the left to [width] digits. *)
Definition zero_pad (width : nat) (n : N) : string :=
  let s := pretty n in
  String.concat "" (replicate (width - String.length s) "0") +:+ s.

(** [datetime.isoformat()] of a naive datetime: the microseconds are shown
    only when they are not zero. *)
Definition isoformat (t : datetime) : string :=
  zero_pad 4 (year t) +:+ "-" +:+ zero_pad 2 (month t) +:+ "-" +:+
  zero_pad 2 (day t) +:+ "T" +:+ zero_pad 2 (hour t) +:+ ":" +:+
  zero_pad 2 (minute t) +:+ ":" +:+ zero_pad 2 (second t) +:+
  (if decide (microsecond t = 0%N) then ""
   else "." +:+ zero_pad 6 (microsecond t)).

(** The marker the tests expect in place of a credential. *)
Definition REDACTED : string := "**REDACTED**".

(** Modelled from the spec: the redaction step of [diagnostics.py], which is
    not among the sources.  "Diagnostics redacts any credential fields
    (email, password) before display": the value under each key to redact
    is replaced by the marker. *)
Definition redact (to_redact : list string) (d : Dict.t string PyVal)
    : Dict.t string PyVal :=
  (λ '(k, v), (k, if bool_decide (k ∈ to_redact) then PyStr REDACTED else v))
    <$> d.

(** Modelled from the spec: the entry of the [details] sequence of
    [diagnostics.py] for one list, with the keys [test_list_info_includes_counts]
    reads. *)
Definition list_details (list_id : Z) (l : ListonicList.t) : PyVal :=
  let items := ListonicList.items l in
  let checked := filter (λ i, ListonicItem.is_checked i = true) items in
  let unchecked := filter (λ i, ListonicItem.is_checked i = false) items in
  PyDict [("list_id", PyInt list_id);
          ("item_count", PyInt (Z.of_nat (length items)));
          ("checked_count", PyInt (Z.of_nat (length checked)));
          ("unchecked_count", PyInt (Z.of_nat (length unchecked)));
          ("is_archived", PyBool (ListonicList.is_archived l))].

Section diagnostics.
Context `{Const}.

(** [dict(entry.data)] *)
Definition entry_data_dict (e : ConfigEntry) : Dict.t string PyVal :=
  [(CONF_EMAIL, PyStr (email (entry_data e)));
   (CONF_PASSWORD, PyStr (password (entry_data e)))].

(** Modelled from the spec: the snapshot built by
    [diagnostics.async_get_config_entry_diagnostics], which is not among the
    sources; its four sections and their keys are those
    [tests/test_diagnostics.py] reads, and a coordinator without data counts
    as one with no lists. *)
Definition diagnostics_snapshot (e : ConfigEntry)
    (c : ListonicDataUpdateCoordinator) : PyVal :=
  let details :=
    (λ '(list_id, l), list_details list_id l) <$> default [] (data c) in
  PyDict [
    ("config_entry",
      PyDict (redact [CONF_EMAIL; CONF_PASSWORD] (entry_data_dict e)));
    ("lists",
      PyDict [("count", PyInt (Z.of_nat (length details)));
              ("details", PyList details)]);
    ("coordinator",
      PyDict [("last_update_success", PyBool (last_update_success c));
              ("last_update_time",
                match last_update_success_time c with
                | Some t => PyStr (isoformat t)
                | None => PyNone
                end);
              ("update_interval_seconds", PyInt (scan_interval_of e))]);
    ("authentication",
      PyDict [("has_token",
                PyBool (bool_decide (is_Some (_token (client c)))));
              ("has_refresh_token",
                PyBool (bool_decide (is_Some (_refresh_token (client c)))))])
  ].

(** Modelled from the spec: [async_get_config_entry_diagnostics(hass, entry)]
    of the absent [diagnostics.py], reading the coordinator through
    [entry.runtime_data]. *)
Definition async_get_config_entry_diagnostics (h : HomeAssistant)
    (e : ConfigEntry) : Result PyVal :=
  match runtime_data e with
  | None => Raise (MkExn AttributeError "runtime_data" None)
  | Some r =>
      match store h !! r with
      | Some c => Return (diagnostics_snapshot e c)
      | None => Raise (MkExn AttributeError "runtime_data" None)
      end
  end.

End diagnostics.

(** The entry [e] with other credentials. *)
Definition set_credentials (em pw : string) (e : ConfigEntry) : ConfigEntry :=
  {| entry_id := entry_id e; entry_data := {| email := em; password := pw |};
     options := options e; runtime_data := runtime_data e;
     update_listeners := update_listeners e; _on_unload := _on_unload e |}.

(** The coordinator [c], its client built with other credentials. *)
Definition set_client_credentials (em pw : string)
    (c : ListonicDataUpdateCoordinator) : ListonicDataUpdateCoordinator :=
  {| client :=
       {| client_email := em; client_password := pw;
          _token := _token (client c);
          _refresh_token := _refresh_token (client c) |};
     data := data c;
     last_update_success := last_update_success c;
     last_update_success_time := last_update_success_time c;
     update_interval := update_interval c |}.

(** Whether the string [s] is one of the strings inside the value [v]. *)
Fixpoint occurs (s : string) (v : PyVal) : Prop :=
  match v with
  | PyStr s' => s = s'
  | PyList l =>
      (fix any (l : list PyVal) : Prop :=
         match l with
         | [] => False
         | x :: l' => occurs s x ∨ any l'
         end) l
  | PyDict d =>
      (fix any (d : list (string * PyVal)) : Prop :=
         match d with
         | [] => False
         | (_, x) :: d' => occurs s x ∨ any d'
         end) d
  | PyNone | PyBool _ | PyInt _ | PyFloat _ => False
  end.

(** ** [scripts/check_credentials.py] *)

Module check_credentials.

(** The double quote, for the patterns that contain one. *)
Definition dq : string := String "034"%char "".

(** The two functions of the [re] module that the script uses:
    [re_search pattern multiline text] and
    [re_sub pattern repl text multiline].  A match is the list of its groups,
    group 0 first.  The patterns of the script are fixed and well formed; the
    replacement template of [re.sub] is built from a credential, and [re.sub]
    raises [re.error] for a template it cannot parse, whether the pattern
    matches or not. *)
Class Re := {
  re_search : string → bool → string → option (list string);
  re_sub : string → string → string → bool → Result string
}.

(** What the script sees of the file system and the terminal: the text of
    [const.py] if the file exists, every text written to it, and the lines
    printed. *)
Record World := {
  const_file : option string;
  writes : list string;
  stdout : list string
}.

(** [requests.get(url, timeout=30)] followed by [raise_for_status()]: the
    text of the response, unless the request failed. *)
Record Net := {
  get_text : string → Result string
}.

Definition print (line : string) : M World unit :=
  modify (λ w, {| const_file := const_file w; writes := writes w;
                  stdout := stdout w ++ [line] |}).

(** [CONST_FILE.read_text()] *)
Definition read_text : M World string := λ w,
  match const_file w with
  | Some content => (Return content, w)
  | None => (Raise (MkExn FileNotFoundError "const.py" None), w)
  end.

(** [CONST_FILE.write_text(content)] *)
Definition write_text (content : string) : M World unit :=
  modify (λ w, {| const_file := Some content;
                  writes := writes w ++ [content];
                  stdout := stdout w |}).

(** [match.group(i)] *)
Definition group (i : nat) (m : list string) : string := default "" (m !! i).

(** [str(x)] of the result of [dict.get]. *)
Definition str_or_None (x : option string) : string := default "None" x.

(** Equality of two dictionaries: the same keys with the same values, in
    whatever order. *)
Definition dict_eqb (a b : Dict.t string string) : bool :=
  bool_decide (length a = length b) &&
  forallb (λ '(k, v), bool_decide (Dict.get k b = Some v)) a.

Definition WEBAPP_URL : string := "https://app.listonic.com".

(** The pairs [get_current_credentials] and [update_credentials] loop over. *)
Definition VARIABLES : list (string * string) :=
  [("CLIENT_ID", "client_id");
   ("CLIENT_SECRET", "client_secret");
   ("REDIRECT_URI", "redirect_uri")].

(** The pattern of the bundle URL in the page. *)
Definition APP_JS_PATTERN : string :=
  "/_next/static/chunks/pages/_app-[a-f0-9]+\.js".

(** The pattern of the credentials in the bundle. *)
Definition CREDENTIALS_PATTERN : string :=
  "var\s+\w+=" +:+ dq +:+ "(listonicv2)" +:+ dq +:+
  ",\w+=" +:+ dq +:+ "([^" +:+ dq +:+ "]+)" +:+ dq +:+
  ",\w+=" +:+ dq +:+ "(https://[^" +:+ dq +:+ "]+)" +:+ dq.

(** The pattern of the line that assigns a string to [var_name], the string
    in group 1. *)
Definition assignment_pattern (var_name : string) : string :=
  "^" +:+ var_name +:+ "\s*=\s*" +:+ dq +:+ "([^" +:+ dq +:+ "]+)" +:+ dq.

(** The same line with what comes before the string in group 1 and the
    closing quote in group 2. *)
Definition replacement_pattern (var_name : string) : string :=
  "^(" +:+ var_name +:+ "\s*=\s*" +:+ dq +:+ ")[^" +:+ dq +:+ "]+(" +:+
  dq +:+ ")".

Section script.
Context `{Re}.
Variable net : Net.

Definition get_app_js_url : M World (option string) :=
  text ← lift (get_text net WEBAPP_URL);
  match re_search APP_JS_PATTERN false text with
  | Some m => mret (Some (WEBAPP_URL +:+ group 0 m))
  | None => mret None
  end.

Definition extract_credentials (js_content : string)
    : option (Dict.t string string) :=
  match re_search CREDENTIALS_PATTERN false js_content with
  | Some m =>
      Some [("client_id", group 1 m);
            ("client_secret", group 2 m);
            ("redirect_uri", group 3 m)]
  | None => None
  end.

(** The loop of [get_current_credentials] over the variables left. *)
Fixpoint current_credentials_loop (content : string)
    (vars : list (string * string)) (credentials : Dict.t string string)
    : Dict.t string string :=
  match vars with
  | [] => credentials
  | (var_name, key) :: rest =>
      current_credentials_loop content rest
        match re_search (assignment_pattern var_name) true content with
        | Some m => Dict.set key (group 1 m) credentials
        | None => credentials
        end
  end.

Definition get_current_credentials : M World (Dict.t string string) :=
  content ← read_text;
  mret (current_credentials_loop content VARIABLES []).

(** The value that the text [content] of [const.py] assigns to the variable
    [var_name], as one round of that loop reads it. *)
Definition assigned (var_name content : string) : option string :=
  group 1 <$> re_search (assignment_pattern var_name) true content.

(** The template [rf'\g<1>{value}\g<2>'], the value pasted in as it is. *)
Definition replacement_template (value : string) : string :=
  "\g<1>" +:+ value +:+ "\g<2>".

(** The loop of [update_credentials] over the variables left. *)
Fixpoint update_credentials_loop (new_credentials : Dict.t string string)
    (vars : list (string * string)) (content : string) : Result string :=
  match vars with
  | [] => Return content
  | (var_name, key) :: rest =>
      match Dict.get key new_credentials with
      | Some value =>
          match re_sub (replacement_pattern var_name)
                  (replacement_template value) content true with
          | Return content' =>
              update_credentials_loop new_credentials rest content'
          | Raise e => Raise e
          end
      | None => update_credentials_loop new_credentials rest content
      end
  end.

Definition update_credentials (new_credentials : Dict.t string string)
    : M World unit :=
  content ← read_text;
  content ← lift (update_credentials_loop new_credentials VARIABLES content);
  write_text content.

(** [d[k]] on a dictionary of strings. *)
Definition item (k : string) (d : Dict.t string string) : M World string :=
  match Dict.get k d with
  | Some v => mret v
  | None => throw (MkExn KeyError k None)
  end.

Definition main : M World Z :=
  print "Checking Listonic credentials...";;
  print ("Fetching " +:+ WEBAPP_URL +:+ "...");;
  app_js_url ← get_app_js_url;
  match app_js_url with
  | None =>
      print "ERROR: Could not find _app JS bundle URL";;
      mret 1
  | Some app_js_url =>
      print ("Found JS bundle: " +:+ app_js_url);;
      print "Fetching JS bundle...";;
      text ← lift (get_text net app_js_url);
      match extract_credentials text with
      | None =>
          print "ERROR: Could not extract credentials from JS bundle";;
          mret 1
      | Some new_credentials =>
          new_id ← item "client_id" new_credentials;
          print ("Extracted credentials: client_id=" +:+ new_id);;
          current_credentials ← get_current_credentials;
          print ("Current credentials: client_id=" +:+
                 default "NOT FOUND" (Dict.get "client_id" current_credentials));;
          if dict_eqb new_credentials current_credentials then
            print "Credentials unchanged";;
            mret 0
          else
            print "Credentials changed! Updating const.py...";;
            print ("  client_id: " +:+
                   str_or_None (Dict.get "client_id" current_credentials) +:+
                   " -> " +:+ new_id);;
            print "  client_secret: ******** -> ********";;
            new_uri ← item "redirect_uri" new_credentials;
            print ("  redirect_uri: " +:+
                   str_or_None (Dict.get "redirect_uri" current_credentials) +:+
                   " -> " +:+ new_uri);;
            update_credentials new_credentials;;
            print "Updated const.py";;
            mret 2
      end
  end.

End script.

(** *** A sample run *)

(** Whether a replacement template holds an escape that [re.sub] refuses:
    a backslash at the end, or a backslash before an ASCII letter that is
    neither the [g] of a group reference nor one of [a b f n r t v]. *)
Fixpoint bad_escape (template : string) : bool :=
  match template with
  | EmptyString => false
  | String c rest =>
      if decide (c = "\"%char) then
        match rest with
        | EmptyString => true
        | String c' rest' =>
            let n := nat_of_ascii c' in
            (bool_decide (65 ≤ n ≤ 90 ∨ 97 ≤ n ≤ 122)%nat &&
             negb (bool_decide (c' ∈ ["a"; "b"; "f"; "g"; "n"; "r"; "t"; "v"]%char)))
            || bad_escape rest'
        end
      else bad_escape rest
  end.

(** A regular-expression engine given by its answers on the texts of the
    example.  [re_sub] raises [re.error] for a template with a bad escape;
    of the substitutions it is asked for in the example, one changes the
    text: the new secret put into [const-v1] gives [const-v2]. *)
Definition sample_re : Re := {|
  re_search pattern multiline text :=
    Dict.get (pattern, text)
      [((APP_JS_PATTERN, "<html>app</html>"),
        ["/_next/static/chunks/pages/_app-0a1b2c.js"]);
       ((CREDENTIALS_PATTERN, "bundle-v1"),
        ["var e=..."; "listonicv2"; "secret-1"; "https://app.listonic.com/cb"]);
       ((CREDENTIALS_PATTERN, "bundle-v2"),
        ["var e=..."; "listonicv2"; "secret-2"; "https://app.listonic.com/cb"]);
       ((assignment_pattern "CLIENT_ID", "const-v1"),
        ["CLIENT_ID = ..."; "listonicv2"]);
       ((assignment_pattern "CLIENT_SECRET", "const-v1"),
        ["CLIENT_SECRET = ..."; "secret-1"]);
       ((assignment_pattern "REDIRECT_URI", "const-v1"),
        ["REDIRECT_URI = ..."; "https://app.listonic.com/cb"]);
       ((CREDENTIALS_PATTERN, "bundle-v3"),
        ["var e=..."; "listonicv2"; "ab\qcd"; "https://app.listonic.com/cb"]);
       ((assignment_pattern "CLIENT_ID", "const-v2"),
        ["CLIENT_ID = ..."; "listonicv2"]);
       ((assignment_pattern "CLIENT_SECRET", "const-v2"),
        ["CLIENT_SECRET = ..."; "secret-2"]);
       ((assignment_pattern "REDIRECT_URI", "const-v2"),
        ["REDIRECT_URI = ..."; "https://app.listonic.com/cb"])];
  re_sub pattern repl text multiline :=
    if bad_escape repl
    then Raise (MkExn ReError "bad escape" None)
    else
      Return (default text
        (Dict.get (pattern, repl, text)
           [((replacement_pattern "CLIENT_SECRET",
              replacement_template "secret-2", "const-v1"), "const-v2")]))
|}.

(** A network on which the page names the bundle [bundle]. *)
Definition sample_net (bundle : string) : Net := {|
  get_text url :=
    if decide (url = WEBAPP_URL) then Return "<html>app</html>"
    else Return bundle
|}.

(** A network on which the page names no bundle. *)
Definition net_without_bundle : Net := {|
  get_text url := Return "<html>maintenance</html>"
|}.

Definition sample_world : World :=
  {| const_file := Some "const-v1"; writes := []; stdout := [] |}.



End check_credentials.

(** ** Sample instances, for the examples *)

(** Values for the names of [const.py]. *)
Definition sample_const : Const := {|
  DOMAIN := "listonic";
  CONF_EMAIL := "email";
  CONF_PASSWORD := "password";
  CONF_SCAN_INTERVAL := "scan_interval";
  DEFAULT_SCAN_INTERVAL := 30
|}.

Definition set_data (d : option (Dict.t Z ListonicList.t))
    (c : ListonicDataUpdateCoordinator) : ListonicDataUpdateCoordinator :=
  {| client := client c; data := d;
     last_update_success := last_update_success c;
     last_update_success_time := last_update_success_time c;
     update_interval := update_interval c |}.

Definition rename (name : string) (l : ListonicList.t) : ListonicList.t :=
  ListonicList.mk (ListonicList.id l) name (ListonicList.items l)
    (ListonicList.is_archived l).

(** A coordinator that starts without data and whose [async_update_list]
    renames the list in place, with [LookupError] for a list it does not
    hold. *)
Definition sample_api : CoordinatorApi := {|
  new_coordinator c e n :=
    {| client := c; data := None; last_update_success := true;
       last_update_success_time := None;
       update_interval := {| total_seconds := n |} |};
  async_update_list c list_id name :=
    match list_id, name, data c with
    | PyInt z, PyStr s, Some d =>
        match Dict.get z d with
        | Some l => (set_data (Some (Dict.set z (rename s l) d)) c, None)
        | None => (c, Some (MkExn KeyError (pretty z) None))
        end
    | _, _, _ => (c, Some (MkExn KeyError "list_id" None))
    end
|}.

(** The white space that [int] strips from a string. *)
Definition is_space (c : ascii) : bool :=
  let n := nat_of_ascii c in
  bool_decide (n = 32 ∨ 9 ≤ n ≤ 13 ∨ 28 ≤ n ≤ 31)%nat.

Fixpoint lstrip (s : string) : string :=
  match s with
  | EmptyString => EmptyString
  | String c s' => if is_space c then lstrip s' else s
  end.

Fixpoint rstrip (s : string) : string :=
  match s with
  | EmptyString => EmptyString
  | String c s' =>
      match rstrip s' with
      | EmptyString => if is_space c then EmptyString else String c EmptyString
      | r => String c r
      end
  end.

(** The value of a run of decimal digits in which single underscores may
    stand between digits; [after_digit] tells whether the character before
    was a digit. *)
Fixpoint digits_value (s : string) (acc : Z) (after_digit : bool) : option Z :=
  match s with
  | EmptyString => if after_digit then Some acc else None
  | String c s' =>
      let n := Z.of_nat (nat_of_ascii c) in
      if decide (48 ≤ n ≤ 57) then digits_value s' (10 * acc + (n - 48)) true
      else if after_digit && bool_decide (c = "_"%char)
      then digits_value s' acc false
      else None
  end.

(** A string without the zeros at its end. *)
Fixpoint rstrip_zeros (s : string) : string :=
  match s with
  | EmptyString => EmptyString
  | String c s' =>
      match rstrip_zeros s' with
      | EmptyString =>
          if decide (c = "0"%char) then EmptyString else String c EmptyString
      | r => String c r
      end
  end.

(** The digits of [m / 2^k] after the point, all of them. *)
Definition fraction_digits (m : Z) (k : Z) : string :=
  let s := pretty (m `mod` 2 ^ k * 5 ^ k) in
  String.concat "" (replicate (Z.to_nat k - String.length s) "0") +:+ s.

(** [int(s)] on numerals in ASCII: white space around the numeral, a sign,
    and single underscores between the digits are accepted.  [str(f)] gives
    every digit of the float; that is what Python prints for a float of at
    most 15 significant digits whose magnitude is 0 or lies between 1e-4
    and 1e16, which are the floats of the examples. *)
Definition sample_builtins : Builtins := {|
  int_of_str s :=
    match rstrip (lstrip s) with
    | String "-" s' => Z.opp <$> digits_value s' 0 false
    | String "+" s' => digits_value s' 0 false
    | s' => digits_value s' 0 false
    end;
  str_of_float f :=
    match f with
    | S754_zero s => if s then "-0.0" else "0.0"
    | S754_infinity s => if s then "-inf" else "inf"
    | S754_nan => "nan"
    | S754_finite s m e =>
        (if s then "-" else "") +:+
        (if decide (0 ≤ e) then pretty (Z.pos m * 2 ^ e) +:+ ".0"
         else
           pretty (Z.pos m `div` 2 ^ (- e)) +:+ "." +:+
           match rstrip_zeros (fraction_digits (Z.pos m) (- e)) with
           | EmptyString => "0"
           | digits => digits
           end)
    end
|}.

Definition sample_client (token refresh : option string) : ListonicApiClient :=
  {| client_email := "user@example.com";
     client_password := "supersecretpassword";
     _token := token; _refresh_token := refresh |}.

(** The lists of the fixture [sample_lists] of the tests. *)
Definition sample_lists : Dict.t Z ListonicList.t :=
  [(123, ListonicList.mk 123 "Groceries"
           [ListonicItem.mk 1 "Milk" false;
            ListonicItem.mk 2 "Bread" true;
            ListonicItem.mk 3 "Eggs" true] false);
   (456, ListonicList.mk 456 "Hardware"
           [ListonicItem.mk 4 "Screws" false] true)].

(** The fixture [mock_coordinator] of the tests. *)
Definition sample_coordinator : ListonicDataUpdateCoordinator :=
  {| client :=
       sample_client (Some "test_access_token") (Some "test_refresh_token");
     data := Some sample_lists;
     last_update_success := true;
     last_update_success_time :=
       Some {| year := 2024; month := 1; day := 15;
               hour := 10; minute := 30; second := 0; microsecond := 0 |};
     update_interval := {| total_seconds := 30 |} |}.

(** The fixture [mock_config_entry] of the tests. *)
Definition sample_entry : ConfigEntry :=
  {| entry_id := "entry-1";
     entry_data := {| email := "user@example.com";
                      password := "supersecretpassword" |};
     options := ∅;
     runtime_data := Some 0%nat;
     update_listeners := [];
     _on_unload := [] |}.

(** A second account, holding one other list. *)
Definition other_coordinator : ListonicDataUpdateCoordinator :=
  {| client := sample_client (Some "token-2") None;
     data := Some [(789, ListonicList.mk 789 "Pharmacy" [] false)];
     last_update_success := true;
     last_update_success_time := None;
     update_interval := {| total_seconds := 120 |} |}.

Definition other_entry : ConfigEntry :=
  {| entry_id := "entry-2";
     entry_data := {| email := "other@example.com"; password := "hunter2" |};
     options := {[ "scan_interval" := 120 ]};
     runtime_data := Some 1%nat;
     update_listeners := [];
     _on_unload := [] |}.

(** Home Assistant with both accounts loaded. *)
Definition sample_hass : HomeAssistant :=
  {| hass_data :=
       {[ "listonic" := [("entry-1", ObjCoordinator 0%nat);
                         ("entry-2", ObjCoordinator 1%nat)] ]};
     services := {[ ("listonic", "rename_list") ]};
     store := [sample_coordinator; other_coordinator];
     trace := [EvRegister "listonic" "rename_list"] |}.

(** A remote service that accepts the credentials and returns the sample
    lists. *)
Definition sample_env : SetupEnv := {|
  authenticate c :=
    ({| client_email := client_email c; client_password := client_password c;
        _token := Some "test_access_token";
        _refresh_token := Some "test_refresh_token" |}, None);
  async_config_entry_first_refresh c := (set_data (Some sample_lists) c, None);
  async_forward_entry_setups := None
|}.

(** A remote service that refuses the credentials. *)
Definition env_bad_credentials : SetupEnv := {|
  authenticate c := (c, Some (MkExn ListonicAuthError "401" None));
  async_config_entry_first_refresh c := (c, None);
  async_forward_entry_setups := None
|}.

(** A first refresh that fails with [err]. *)
Definition env_refresh_fails (err : Exn) : SetupEnv := {|
  authenticate := authenticate sample_env;
  async_config_entry_first_refresh c := (c, Some err);
  async_forward_entry_setups := None
|}.

(** Home Assistant after the set-up of one account, and of a second. *)
Definition one_account : HomeAssistant :=
  (@async_setup_entry sample_const sample_api sample_env
     (hass_init, sample_entry)).2.1.

Definition two_accounts : HomeAssistant :=
  (@async_setup_entry sample_const sample_api sample_env
     (one_account, other_entry)).2.1.

(** The entry [e] after its options were changed to [opts]. *)
Definition set_options (opts : gmap string Z) (e : ConfigEntry) : ConfigEntry :=
  {| entry_id := entry_id e; entry_data := entry_data e;
     options := opts; runtime_data := runtime_data e;
     update_listeners := update_listeners e; _on_unload := _on_unload e |}.

(** A set-up whose forwarding to the platforms raises. *)
Definition env_forward_fails (err : Exn) : SetupEnv := {|
  authenticate := authenticate sample_env;
  async_config_entry_first_refresh :=
    async_config_entry_first_refresh sample_env;
  async_forward_entry_setups := Some err
|}.

(** A third account, not set up yet. *)
Definition third_entry : ConfigEntry :=
  {| entry_id := "entry-3";
     entry_data := {| email := "third@example.com"; password := "pw-3" |};
     options := ∅;
     runtime_data := None;
     update_listeners := [];
     _on_unload := [] |}.

(** Two accounts that both hold the lists of the fixture. *)
Definition twin_hass : HomeAssistant :=
  {| hass_data :=
       {[ "listonic" := [("entry-1", ObjCoordinator 0%nat);
                         ("entry-2", ObjCoordinator 1%nat)] ]};
     services := {[ ("listonic", "rename_list") ]};
     store := [sample_coordinator; set_data (Some sample_lists) other_coordinator];
     trace := [EvRegister "listonic" "rename_list"] |}.

(** Two accounts, the first of which has no data. *)
Definition stale_hass : HomeAssistant :=
  {| hass_data :=
       {[ "listonic" := [("entry-1", ObjCoordinator 0%nat);
                         ("entry-2", ObjCoordinator 1%nat)] ]};
     services := {[ ("listonic", "rename_list") ]};
     store := [set_data None sample_coordinator; other_coordinator];
     trace := [EvRegister "listonic" "rename_list"] |}.

(** ** Properties of dictionaries *)

Section dict_properties.
Context {K V : Type} `{EqDecision K}.
Implicit Types (d : list (K * V)) (k : K) (v : V).

Lemma dict_contains_keys k d : Dict.contains k d = true ↔ k ∈ Dict.keys d.
Proof.
  unfold Dict.contains, Dict.keys. rewrite bool_decide_eq_true.
  induction d as [|[k' v'] d IH]; simpl.
  - split; [by intros [? ?] | by intros ?%not_elem_of_nil].
  - destruct (decide (k = k')) as [->|Hne].
    + split; [intros _; by left | by eauto].
    + rewrite IH. split; [by right|].
      intros [?|?]%elem_of_cons; done.
Qed.

Lemma dict_get_None k d : Dict.get k d = None ↔ k ∉ Dict.keys d.
Proof.
  rewrite <-dict_contains_keys. unfold Dict.contains.
  rewrite bool_decide_eq_true, <-eq_None_not_Some. done.
Qed.

Lemma dict_set_nonempty k v d : Dict.set k v d ≠ [].
Proof. destruct d as [|[k' v'] d]; simpl; [done|]. by case_decide. Qed.

Lemma dict_get_set k v d : Dict.get k (Dict.set k v d) = Some v.
Proof.
  induction d as [|[k' v'] d IH]; simpl.
  - by rewrite decide_True.
  - destruct (decide (k = k')) as [->|Hne]; simpl.
    + by rewrite decide_True.
    + by rewrite decide_False.
Qed.

Lemma dict_keys_set k v d :
  Dict.keys (Dict.set k v d) =
    if Dict.contains k d then Dict.keys d else Dict.keys d ++ [k].
Proof.
  induction d as [|[k' v'] d IH]; [done|].
  unfold Dict.contains in *. simpl.
  destruct (decide (k = k')) as [->|Hne]; simpl.
  - done.
  - unfold Dict.keys in *. simpl. rewrite IH. by destruct (bool_decide _).
Qed.

Lemma dict_wf_set k v d : Dict.wf d → Dict.wf (Dict.set k v d).
Proof.
  unfold Dict.wf. rewrite dict_keys_set. intros Hwf.
  destruct (Dict.contains k d) eqn:Hk; [done|].
  apply NoDup_app. split_and!; [done| |apply NoDup_singleton].
  intros k' Hk' ->%list_elem_of_singleton.
  apply dict_contains_keys in Hk'. congruence.
Qed.

Lemma dict_values_set k v d x :
  x ∈ Dict.values (Dict.set k v d) → x = v ∨ x ∈ Dict.values d.
Proof.
  unfold Dict.values. induction d as [|[k' v'] d IH]; simpl.
  - intros ->%list_elem_of_singleton. by left.
  - destruct (decide (k = k')) as [->|Hne]; simpl.
    + intros [->|?]%elem_of_cons; [by left|right; by right].
    + intros [->|?]%elem_of_cons; [right; by left|].
      destruct IH as [?|?]; [done|by left|right; by right].
Qed.

Lemma dict_keys_remove k d k' :
  k' ∈ Dict.keys (Dict.remove k d) → k' ∈ Dict.keys d.
Proof.
  unfold Dict.keys. induction d as [|[k0 v0] d IH]; simpl; [done|].
  destruct (decide (k = k0)) as [->|Hne]; simpl.
  - by right.
  - intros [->|?]%elem_of_cons; [by left|right; by apply IH].
Qed.

Lemma dict_values_remove k d x :
  x ∈ Dict.values (Dict.remove k d) → x ∈ Dict.values d.
Proof.
  unfold Dict.values. induction d as [|[k0 v0] d IH]; simpl; [done|].
  destruct (decide (k = k0)) as [->|Hne]; simpl.
  - by right.
  - intros [->|?]%elem_of_cons; [by left|right; by apply IH].
Qed.

Lemma dict_wf_remove k d : Dict.wf d → Dict.wf (Dict.remove k d).
Proof.
  unfold Dict.wf, Dict.keys. induction d as [|[k0 v0] d IH]; simpl; [done|].
  intros [Hk0 Hd]%NoDup_cons.
  destruct (decide (k = k0)) as [->|Hne]; simpl; [done|].
  apply NoDup_cons. split; [|by apply IH].
  intros Hin. apply Hk0. by eapply (dict_keys_remove k d).
Qed.

(** After [pop], the key is gone. *)
Lemma dict_get_remove k d : Dict.wf d → Dict.get k (Dict.remove k d) = None.
Proof.
  unfold Dict.wf, Dict.keys. induction d as [|[k0 v0] d IH]; simpl; [done|].
  intros [Hk0 Hd]%NoDup_cons.
  destruct (decide (k = k0)) as [->|Hne]; simpl.
  - by apply dict_get_None.
  - rewrite decide_False by done. by apply IH.
Qed.

(** [pop] empties a dictionary exactly when the key was its only one. *)
Lemma dict_remove_nil k d :
  Dict.contains k d = true → Dict.remove k d = [] ↔ Dict.keys d = [k].
Proof.
  unfold Dict.contains, Dict.keys. rewrite bool_decide_eq_true.
  destruct d as [|[k0 v0] d]; simpl; [by intros [? ?]|].
  destruct (decide (k = k0)) as [->|Hne]; simpl.
  - intros _. destruct d; naive_solver.
  - intros _. naive_solver.
Qed.

End dict_properties.

(** ** Properties of [__init__.py] *)

(** Unfolds the monad. *)
Ltac run :=
  unfold mbind, mret, M_bind, M_ret, bind, ret, throw, gets, get, modify,
    lift, try_except, call_method in *; simpl in *.

Section integration_properties.
Context `{Const, CoordinatorApi, Builtins}.

(** C5, as amended: when the interval found in the options, or the default
    when the option is absent, is within the range of [timedelta], the
    options listener gives it to the coordinator of the entry and changes
    nothing else: the other fields of that coordinator, the other
    coordinators, [hass.data], the services and the entry stay as they
    were.  When it is outside the range, the listener raises
    [OverflowError] and changes nothing at all. *)
Theorem update_listener_changes_only_interval (h : HomeAssistant)
    (e : ConfigEntry) (r : ref) (c : ListonicDataUpdateCoordinator) :
  runtime_data e = Some r →
  store h !! r = Some c →
  let new_interval :=
    match options e !! CONF_SCAN_INTERVAL with
    | Some new_interval => new_interval
    | None => DEFAULT_SCAN_INTERVAL
    end in
  (timedelta_in_range new_interval →
   ∃ h' c',
     _async_update_listener (h, e) = (Return tt, (h', e)) ∧
     store h' !! r = Some c' ∧
     update_interval c' = {| total_seconds := new_interval |} ∧
     data c' = data c ∧
     last_update_success c' = last_update_success c ∧
     last_update_success_time c' = last_update_success_time c ∧
     client c' = client c ∧
     (∀ r', r' ≠ r → store h' !! r' = store h !! r') ∧
     hass_data h' = hass_data h ∧
     services h' = services h) ∧
  (¬ timedelta_in_range new_interval →
   ∃ err,
     _async_update_listener (h, e) = (Raise err, (h, e)) ∧
     exn_class err = OverflowError).
Proof.
  intros Hr Hc new_interval.
  assert (scan_interval_of e = new_interval) as Hscan.
  { unfold scan_interval_of, new_interval. by destruct (options e !! _). }
  unfold _async_update_listener, timedelta_of_seconds. run.
  rewrite Hr, Hscan. split; intros Hrange.
  - rewrite decide_True by done. simpl.
    eexists _, (set_update_interval _ c). split; [reflexivity|].
    simpl. rewrite Hc.
    split. { apply list_lookup_insert_eq. by eapply lookup_lt_Some. }
    do 5 (split; [reflexivity|]).
    split; [|done].
    intros r' Hne. by apply list_lookup_insert_ne.
  - rewrite decide_False by done. simpl. by eexists.
Qed.

(** C2: set-up fails with [ConfigEntryAuthFailed] when [authenticate] raises
    [ListonicAuthError]; when the first refresh raises
    [ConfigEntryAuthFailed], set-up raises that same exception, and when the
    first refresh raises any other [Exception], set-up fails with
    [ConfigEntryNotReady]. *)
Theorem setup_failure_classification (env : SetupEnv) (h : HomeAssistant)
    (e : ConfigEntry) :
  let client0 := new_client (email (entry_data e)) (password (entry_data e)) in
  let result := (async_setup_entry env (h, e)).1 in
  (∀ client err,
     authenticate env client0 = (client, Some err) →
     is_ListonicAuthError err = true →
     result =
       Raise (MkExn ConfigEntryAuthFailed "Invalid credentials" (Some err))) ∧
  (∀ client c err,
     authenticate env client0 = (client, None) →
     async_config_entry_first_refresh env
       (new_coordinator client e (scan_interval_of e)) = (c, Some err) →
     (is_ConfigEntryAuthFailed err = true → result = Raise err) ∧
     (is_ConfigEntryAuthFailed err = false →
      is_Exception err = true →
      result =
        Raise (MkExn ConfigEntryNotReady
                 ("Failed to fetch initial data: " +:+ exn_str err)
                 (Some err)))).
Proof.
  intros client0 result. subst result client0. split.
  - intros client err Hauth Hcls. unfold async_setup_entry. run.
    rewrite Hauth. simpl. by rewrite Hcls.
  - intros client c err Hauth Hrefresh. unfold async_setup_entry. run.
    rewrite Hauth. simpl. unfold first_refresh. simpl.
    rewrite lookup_app_r by done. rewrite Nat.sub_diag. simpl.
    rewrite Hrefresh. simpl. split.
    + intros Hcls. by rewrite Hcls.
    + intros Hcls Hexn. by rewrite Hcls, Hexn.
Qed.

Lemma live_coordinators_elem (h : HomeAssistant) (reg : Dict.t string PyObj)
    (r : ref) :
  hass_data h !! DOMAIN = Some reg →
  r ∈ live_coordinators h ↔ ObjCoordinator r ∈ Dict.values reg.
Proof.
  intros Hreg. unfold live_coordinators. rewrite Hreg. simpl.
  rewrite list_elem_of_omap. split.
  - intros (o & Ho & Heq). destruct o; naive_solver.
  - intros Ho. exists (ObjCoordinator r). done.
Qed.

(** The loop finds no owner: it ends in the statement after the loop. *)
Lemma rename_loop_no_owner (h : HomeAssistant) (z : Z) (name : PyVal)
    (values : list PyObj) :
  (∀ r, ObjCoordinator r ∈ values → has_data h r = true) →
  (∀ r, ObjCoordinator r ∈ values → holds_list h z r = false) →
  async_rename_list_loop (PyInt z) name values h =
    (Return tt,
     emit (EvLog ERROR "List %s not found in any Listonic account" [PyInt z]) h).
Proof.
  induction values as [|o values IH]; intros Hdata Hnone; [done|].
  assert (async_rename_list_loop (PyInt z) name values h =
    (Return tt,
     emit (EvLog ERROR "List %s not found in any Listonic account" [PyInt z]) h))
    as Hrest.
  { apply IH; intros r Hr; [apply Hdata | apply Hnone]; by right. }
  destruct o as [r|v]; [|done]. simpl. run.
  specialize (Hdata r ltac:(left)). specialize (Hnone r ltac:(left)).
  unfold has_data, holds_list in *.
  destruct (store h !! r) as [c|]; [|done].
  destruct (data c) as [d|]; [|done]. simpl. by rewrite Hnone.
Qed.

(** The loop stops at the one coordinator that holds the list. *)
Lemma rename_loop_one_owner (h : HomeAssistant) (z : Z) (name : PyVal)
    (r : ref) (values : list PyObj) :
  ObjCoordinator r ∈ values →
  holds_list h z r = true →
  (∀ r', ObjCoordinator r' ∈ values → has_data h r' = true) →
  (∀ r', ObjCoordinator r' ∈ values → holds_list h z r' = true → r' = r) →
  async_rename_list_loop (PyInt z) name values h =
    call_async_update_list r (PyInt z) name h.
Proof.
  intros Hin Hr. induction values as [|o values IH]; intros Hdata Huniq.
  { by apply not_elem_of_nil in Hin. }
  destruct o as [r0|v].
  - simpl. run.
    pose proof (Hdata r0 ltac:(left)) as Hd0.
    pose proof (Huniq r0 ltac:(left)) as Hu0.
    unfold has_data, holds_list in Hd0, Hu0.
    destruct (store h !! r0) as [c0|] eqn:Hc0; [|done].
    destruct (data c0) as [d0|] eqn:Hd; [|done]. simpl.
    destruct (Dict.contains z d0) eqn:Hz.
    + by rewrite (Hu0 eq_refl).
    + apply IH.
      * apply elem_of_cons in Hin as [Heq|Hin]; [|done].
        injection Heq as <-. unfold holds_list in Hr.
        rewrite Hc0, Hd in Hr. congruence.
      * intros r' Hr'. apply Hdata. by right.
      * intros r' Hr'. apply Huniq. by right.
  - simpl. apply IH.
    + apply elem_of_cons in Hin as [Heq|Hin]; [done|done].
    + intros r' Hr'. apply Hdata. by right.
    + intros r' Hr'. apply Huniq. by right.
Qed.

(** C1, as amended: when the list is in the data mapping of no live
    coordinator, the handler raises nothing: it logs the error "List %s not
    found in any Listonic account" and returns; [async_update_list] is not
    invoked, and the coordinators and [hass.data] stay as they were. *)
Theorem rename_unknown_list_logs_and_returns (h : HomeAssistant)
    (call : ServiceCall.t) (z : Z) (name : PyVal)
    (reg : Dict.t string PyObj) :
  Dict.get ATTR_LIST_ID (ServiceCall.data call) = Some (PyInt z) →
  Dict.get ATTR_NAME (ServiceCall.data call) = Some name →
  hass_data h !! DOMAIN = Some reg →
  (∀ r, r ∈ live_coordinators h → has_data h r = true) →
  (∀ r, r ∈ live_coordinators h → holds_list h z r = false) →
  ∃ h',
    async_rename_list call h = (Return tt, h') ∧
    store h' = store h ∧
    hass_data h' = hass_data h ∧
    services h' = services h ∧
    trace h' =
      trace h ++
      [EvLog ERROR "List %s not found in any Listonic account" [PyInt z]].
Proof.
  intros Hid Hname Hreg Hdata Hnone.
  assert (async_rename_list call h =
    (Return tt,
     emit (EvLog ERROR "List %s not found in any Listonic account" [PyInt z]) h))
    as Hrun.
  { unfold async_rename_list, getitem, hass_data_domain. run.
    rewrite Hid, Hname. simpl. rewrite Hreg.
    apply rename_loop_no_owner; intros r Hr.
    - apply Hdata. by eapply live_coordinators_elem.
    - apply Hnone. by eapply live_coordinators_elem. }
  eexists. split; [exact Hrun|]. done.
Qed.

(** C3: when the list is in the data mapping of exactly one live
    coordinator, the handler invokes [async_update_list(list_id, name=name)]
    on that coordinator, once, and on no other: the only new event is that
    invocation, the store changes at that coordinator alone, and the handler
    ends as the invocation does. *)
Theorem rename_routes_to_the_owner (h : HomeAssistant) (call : ServiceCall.t)
    (z : Z) (name : PyVal) (reg : Dict.t string PyObj) (r : ref)
    (c : ListonicDataUpdateCoordinator) :
  Dict.get ATTR_LIST_ID (ServiceCall.data call) = Some (PyInt z) →
  Dict.get ATTR_NAME (ServiceCall.data call) = Some name →
  hass_data h !! DOMAIN = Some reg →
  (∀ r', r' ∈ live_coordinators h → has_data h r' = true) →
  r ∈ live_coordinators h →
  store h !! r = Some c →
  holds_list h z r = true →
  (∀ r', r' ∈ live_coordinators h → holds_list h z r' = true → r' = r) →
  ∃ h',
    async_rename_list call h =
      (match (async_update_list c (PyInt z) name).2 with
       | None => Return tt
       | Some err => Raise err
       end, h') ∧
    trace h' = trace h ++ [EvUpdateList r (PyInt z) name] ∧
    store h' !! r = Some (async_update_list c (PyInt z) name).1 ∧
    (∀ r', r' ≠ r → store h' !! r' = store h !! r') ∧
    hass_data h' = hass_data h ∧
    services h' = services h.
Proof.
  intros Hid Hname Hreg Hdata Hin Hc Hholds Huniq.
  assert (async_rename_list call h =
          call_async_update_list r (PyInt z) name h) as ->.
  { unfold async_rename_list, getitem, hass_data_domain. run.
    rewrite Hid, Hname. simpl. rewrite Hreg.
    apply rename_loop_one_owner; [|done|..].
    - by eapply live_coordinators_elem.
    - intros r' Hr'. apply Hdata. by eapply live_coordinators_elem.
    - intros r' Hr'. apply Huniq. by eapply live_coordinators_elem. }
  unfold call_async_update_list. rewrite Hc.
  destruct (async_update_list c (PyInt z) name) as [c' err]. simpl.
  eexists. split; [reflexivity|]. simpl.
  split; [done|]. split.
  { apply list_lookup_insert_eq. by eapply lookup_lt_Some. }
  split; [|done]. intros r' Hne. by apply list_lookup_insert_ne.
Qed.

(** What the schema accepts, item by item: the validated value of a key is
    what the validator of that key made of the value given. *)
Lemma validate_items_get (schema : list (string * vol.Validator))
    (d out : Dict.t string PyVal) (k : string) (v : PyVal) :
  vol.validate_items schema d = Return (Some out) →
  Dict.get k d = Some v →
  ∃ validator v',
    Dict.get k schema = Some validator ∧ validator v = Return v' ∧
    Dict.get k out = Some v'.
Proof.
  revert out. induction d as [|[k0 v0] d IH]; intros out Hval Hget; [done|].
  simpl in Hval.
  destruct (Dict.get k0 schema) as [validator|] eqn:Hschema;
    [|by destruct (vol.validate_items schema d)].
  destruct (validator v0) as [v0'|err] eqn:Hv0.
  - destruct (vol.validate_items schema d) as [[out'|]|] eqn:Hrest; try done.
    simpl in Hval. injection Hval as <-. simpl in Hget |- *.
    destruct (decide (k = k0)) as [->|Hne].
    + injection Hget as <-. by exists validator, v0'.
    + by apply IH.
  - destruct (is_Invalid err); [|done].
    by destruct (vol.validate_items schema d).
Qed.

Lemma coerce_int_spec (v w : PyVal) :
  vol.Coerce_int v = Return w → ∃ z, w = PyInt z.
Proof.
  destruct v as [|b|z|f|s|l|d]; simpl; intros Hw; try done.
  - injection Hw as <-. eauto.
  - injection Hw as <-. eauto.
  - destruct f; simpl in Hw; try done.
    + injection Hw as <-. eauto.
    + destruct (decide (0 ≤ e)); injection Hw as <-; eauto.
  - destruct (int_of_str s); [|done]. injection Hw as <-. eauto.
Qed.

Lemma positive_int_spec (v v' : PyVal) :
  cv.positive_int v = Return v' →
  ∃ z, v' = PyInt z ∧ 0 ≤ z ∧ vol.Coerce_int v = Return (PyInt z).
Proof.
  unfold cv.positive_int, vol.All. intros Hv.
  destruct (vol.Coerce_int v) as [w|] eqn:Hw; [|done].
  destruct (coerce_int_spec _ _ Hw) as [z ->].
  simpl in Hv. destruct (decide (z < 0)); [done|].
  injection Hv as <-. exists z. split; [done|]. split; [lia|done].
Qed.

Lemma string_spec (v v' : PyVal) :
  cv.string v = Return v' → ∃ s, v' = PyStr s.
Proof. destruct v; simpl; intros Hv; try done; injection Hv as <-; eauto. Qed.

(** C6, as amended: the schema accepts a call only if [int] coerces the
    [list_id] given to an integer that is not negative and [name] is, or
    [str] converts it to, a string, and the validated data hold that integer
    and that string; a call whose [list_id] is, or coerces to, a negative
    integer is rejected; and a call the schema rejects fails with the
    exception of the validation before the handler runs, Home Assistant and
    its coordinators left as they were. *)
Theorem rename_schema_accepts_nonnegative_ids (service_data : Dict.t string PyVal) :
  (∀ out,
     SERVICE_RENAME_LIST_SCHEMA service_data = Return out →
     ∃ v n z s,
       Dict.get ATTR_LIST_ID service_data = Some v ∧
       Dict.get ATTR_NAME service_data = Some n ∧
       vol.Coerce_int v = Return (PyInt z) ∧ 0 ≤ z ∧
       cv.string n = Return (PyStr s) ∧
       Dict.get ATTR_LIST_ID out = Some (PyInt z) ∧
       Dict.get ATTR_NAME out = Some (PyStr s)) ∧
  (∀ v z,
     Dict.get ATTR_LIST_ID service_data = Some v →
     vol.Coerce_int v = Return (PyInt z) → z < 0 →
     ∃ err, SERVICE_RENAME_LIST_SCHEMA service_data = Raise err) ∧
  (∀ h err,
     (DOMAIN, SERVICE_RENAME_LIST) ∈ services h →
     SERVICE_RENAME_LIST_SCHEMA service_data = Raise err →
     async_call_rename_list service_data h = (Raise err, h)).
Proof.
  split; [|split].
  - unfold SERVICE_RENAME_LIST_SCHEMA, vol.Schema. intros out Hout.
    destruct (vol.validate_items _ service_data) as [[out'|]|] eqn:Hval;
      [|done|done].
    destruct (forallb _ _) eqn:Hreq; [|done]. injection Hout as ->.
    simpl in Hreq. apply andb_prop in Hreq as [Hid Hname].
    apply andb_prop in Hname as [Hname _].
    unfold Dict.contains in Hid, Hname.
    apply bool_decide_eq_true in Hid as [v Hid].
    apply bool_decide_eq_true in Hname as [n Hname].
    destruct (validate_items_get _ _ _ _ _ Hval Hid)
      as (f & v' & Hf & Hv & Hgetv).
    destruct (validate_items_get _ _ _ _ _ Hval Hname)
      as (g & n' & Hg & Hn & Hgetn).
    change (Some cv.positive_int = Some f) in Hf. injection Hf as <-.
    change (Some cv.string = Some g) in Hg. injection Hg as <-.
    apply positive_int_spec in Hv as (z & -> & Hz & Hcoerce).
    destruct (string_spec _ _ Hn) as (s & ->).
    by exists v, n, z, s.
  - unfold SERVICE_RENAME_LIST_SCHEMA, vol.Schema. intros v z Hid Hcoerce Hneg.
    destruct (vol.validate_items _ service_data) as [[out'|]|] eqn:Hval;
      [|by eexists|by eexists].
    destruct (validate_items_get _ _ _ _ _ Hval Hid)
      as (f & v' & Hf & Hv & _).
    change (Some cv.positive_int = Some f) in Hf. injection Hf as <-.
    unfold cv.positive_int, vol.All in Hv. rewrite Hcoerce in Hv.
    simpl in Hv. by destruct (decide (z < 0)).
  - intros h err Hreg Hschema. unfold async_call_rename_list. run.
    rewrite bool_decide_eq_true_2 by done. by rewrite Hschema.
Qed.

(** *** The registry invariant *)

Lemma elem_of_registered (x : string * string) (s : gset (string * string)) :
  x ∈ {[x]} ∪ s.
Proof. apply elem_of_union_l. by apply elem_of_singleton. Qed.

Lemma not_elem_of_removed (x : string * string) (s : gset (string * string)) :
  x ∉ s ∖ {[x]}.
Proof. intros [_ Hx]%elem_of_difference. apply Hx. by apply elem_of_singleton. Qed.

(** [h'] differs from [h] at most in the coordinator objects, which are all
    still there, and in events that are neither registrations nor
    removals. *)
Record same_registry (h h' : HomeAssistant) : Prop := {
  sr_data : hass_data h' = hass_data h;
  sr_services : services h' = services h;
  sr_store : ∀ r, is_Some (store h !! r) → is_Some (store h' !! r);
  sr_registrations : registrations (trace h') = registrations (trace h);
  sr_removals : removals (trace h') = removals (trace h)
}.

Lemma same_registry_refl (h : HomeAssistant) : same_registry h h.
Proof. by split. Qed.

Lemma same_registry_trans (h1 h2 h3 : HomeAssistant) :
  same_registry h1 h2 → same_registry h2 h3 → same_registry h1 h3.
Proof.
  intros [] []. split; try congruence. auto.
Qed.

Lemma same_registry_insert (h : HomeAssistant) (r : ref)
    (c : ListonicDataUpdateCoordinator) :
  same_registry h (set_store (<[r := c]>) h).
Proof.
  split; try done. simpl. intros r' Hr'.
  apply lookup_lt_is_Some. rewrite length_insert.
  by apply lookup_lt_is_Some.
Qed.

Lemma same_registry_alloc (h : HomeAssistant)
    (c : ListonicDataUpdateCoordinator) :
  same_registry h (set_store (λ st, st ++ [c]) h).
Proof.
  split; try done. simpl. intros r' Hr'.
  apply lookup_lt_is_Some. rewrite length_app.
  apply lookup_lt_is_Some in Hr'. lia.
Qed.

Lemma same_registry_emit (h : HomeAssistant) (ev : Event) :
  is_EvRegister ev = false → is_EvRemove ev = false →
  same_registry h (emit ev h).
Proof.
  intros Hreg Hrem. split; try done; simpl.
  - unfold registrations. rewrite filter_app, length_app.
    rewrite filter_cons_False by (simpl; congruence). simpl. lia.
  - unfold removals. rewrite filter_app, length_app.
    rewrite filter_cons_False by (simpl; congruence). simpl. lia.
Qed.

Lemma live_coordinators_same (h h' : HomeAssistant) :
  hass_data h' = hass_data h → live_coordinators h' = live_coordinators h.
Proof. unfold live_coordinators. by intros ->. Qed.

Lemma registry_inv_same (h h' : HomeAssistant) :
  registry_inv h → same_registry h h' → registry_inv h'.
Proof.
  intros [] []. split.
  - congruence.
  - intros reg. rewrite sr_data0. auto.
  - rewrite sr_data0, sr_services0. done.
  - intros r. rewrite (live_coordinators_same h h') by done. auto.
  - rewrite sr_registrations0, sr_removals0, sr_services0. done.
Qed.

Lemma same_registry_update_list (h : HomeAssistant) (r : ref)
    (list_id name : PyVal) :
  same_registry h (call_async_update_list r list_id name h).2.
Proof.
  unfold call_async_update_list.
  destruct (store h !! r) as [c|]; [|apply same_registry_refl].
  destruct (async_update_list c list_id name) as [c' err]. simpl.
  eapply same_registry_trans; [|apply same_registry_insert].
  by apply same_registry_emit.
Qed.

Lemma same_registry_rename_loop (h : HomeAssistant) (list_id name : PyVal)
    (values : list PyObj) :
  same_registry h (async_rename_list_loop list_id name values h).2.
Proof.
  induction values as [|o values IH]; simpl.
  - by apply same_registry_emit.
  - destruct o as [r|v]; [|done]. run.
    destruct (store h !! r) as [c|]; [|done].
    destruct (py_in list_id (data c)) as [[]|err]; simpl.
    + apply same_registry_update_list.
    + done.
    + apply same_registry_refl.
Qed.

Lemma same_registry_call (h : HomeAssistant)
    (service_data : Dict.t string PyVal) :
  same_registry h (async_call_rename_list service_data h).2.
Proof.
  unfold async_call_rename_list. run.
  destruct (bool_decide _); [|apply same_registry_refl]. simpl.
  destruct (SERVICE_RENAME_LIST_SCHEMA service_data) as [processed|err];
    [|apply same_registry_refl].
  unfold async_rename_list, getitem, hass_data_domain. run.
  destruct (Dict.get ATTR_LIST_ID processed); [|apply same_registry_refl].
  simpl. destruct (Dict.get ATTR_NAME processed); [|apply same_registry_refl].
  simpl. destruct (hass_data h !! DOMAIN); [|apply same_registry_refl].
  apply same_registry_rename_loop.
Qed.

Lemma same_registry_listener (h : HomeAssistant) (e : ConfigEntry) :
  same_registry h (_async_update_listener (h, e)).2.1.
Proof.
  unfold _async_update_listener. run.
  destruct (runtime_data e) as [r|]; [|apply same_registry_refl]. simpl.
  destruct (timedelta_of_seconds (scan_interval_of e)) as [interval|err];
    [|apply same_registry_refl]. simpl.
  eapply same_registry_trans; [|by apply same_registry_emit].
  destruct (store h !! r) as [c|] eqn:Hc.
  - replace (set_store _ h) with
      (set_store (<[r := set_update_interval interval c]>) h).
    + apply same_registry_insert.
    + unfold set_store. by rewrite Hc.
  - replace (set_store _ h) with h; [apply same_registry_refl|].
    unfold set_store. rewrite Hc. by destruct h.
Qed.

(** The two ways [async_setup_entry] ends: it raises before it has touched
    the registry, or it stores the coordinator and registers the service,
    and then succeeds unless forwarding to the platforms raises. *)
Lemma setup_cases (env : SetupEnv) (h : HomeAssistant) (e : ConfigEntry) :
  ∃ h1,
    same_registry h h1 ∧ trace h1 = trace h ∧
    (((async_setup_entry env (h, e)).2 = (h1, e) ∧
      ∃ err, (async_setup_entry env (h, e)).1 = Raise err) ∨
     (∃ r,
        is_Some (store h1 !! r) ∧
        (async_setup_entry env (h, e)).2 =
          (registered_state (entry_id e) r h1,
           register_update_listener (set_runtime_data (Some r) e)) ∧
        (async_setup_entry env (h, e)).1 =
          match async_forward_entry_setups env with
          | Some err => Raise err
          | None => Return true
          end)).
Proof.
  unfold async_setup_entry. run.
  destruct (authenticate env _) as [client [err|]]; simpl.
  { exists h. split; [apply same_registry_refl|]. split; [done|]. left.
    destruct (is_ListonicAuthError err); simpl; eauto. }
  unfold first_refresh. simpl.
  rewrite lookup_app_r by done. rewrite Nat.sub_diag. simpl.
  destruct (async_config_entry_first_refresh env _) as [c [err|]]; simpl.
  { eexists. split; [|split; [|left]].
    - eapply same_registry_trans;
        [apply same_registry_alloc | apply same_registry_insert].
    - done.
    - destruct (is_ConfigEntryAuthFailed err); simpl; [by eauto|].
      destruct (is_Exception err); simpl; eauto. }
  eexists. split.
  { eapply same_registry_trans;
      [apply same_registry_alloc | apply same_registry_insert]. }
  split; [done|]. right. exists (length (store h)). split.
  { simpl. apply lookup_lt_is_Some. rewrite length_insert, length_app.
    simpl. lia. }
  unfold registered_state. simpl.
  destruct (bool_decide _); simpl;
    by destruct (async_forward_entry_setups env).
Qed.

Lemma live_coordinators_store_coordinator (h : HomeAssistant) (eid : string)
    (r r' : ref) :
  r' ∈ live_coordinators (store_coordinator eid r h) →
  r' = r ∨ r' ∈ live_coordinators h.
Proof.
  unfold live_coordinators, store_coordinator. simpl.
  rewrite lookup_insert_eq. simpl.
  rewrite !list_elem_of_omap. intros (o & Ho & Hr').
  apply dict_values_set in Ho as [->|Ho].
  - left. congruence.
  - right. by exists o.
Qed.

Lemma registry_inv_registered_state (h : HomeAssistant) (eid : string)
    (r : ref) :
  registry_inv h → is_Some (store h !! r) →
  registry_inv (registered_state eid r h).
Proof.
  intros [] Hr.
  assert (registry_inv_core :
    hass_data (store_coordinator eid r h) !! DOMAIN ≠ Some [] ∧
    (∀ reg, hass_data (store_coordinator eid r h) !! DOMAIN = Some reg →
            Dict.wf reg) ∧
    is_Some (hass_data (store_coordinator eid r h) !! DOMAIN) ∧
    (∀ r', r' ∈ live_coordinators (store_coordinator eid r h) →
           is_Some (store h !! r'))).
  { unfold store_coordinator at 1 2 3. simpl. rewrite lookup_insert_eq.
    split_and!.
    - intros [= Hnil]. by eapply dict_set_nonempty.
    - intros reg [= <-]. apply dict_wf_set.
      destruct (hass_data h !! DOMAIN) as [reg|] eqn:Hreg; simpl.
      + by apply inv_wf0.
      + apply NoDup_nil_2.
    - done.
    - intros r' [->|Hr']%live_coordinators_store_coordinator; auto. }
  destruct registry_inv_core as (Hne & Hwf & Hsome & Hrefs).
  unfold registered_state. simpl.
  destruct (bool_decide _) eqn:Hreg.
  - apply bool_decide_eq_true in Hreg. split; try done.
    simpl. by rewrite bool_decide_eq_true_2 by done.
  - apply bool_decide_eq_false in Hreg. simpl in Hreg.
    split; simpl; try done.
    + split; [done|]. intros _. apply elem_of_registered.
    + rewrite bool_decide_eq_true_2 by apply elem_of_registered.
      unfold registrations, removals in *.
      rewrite !filter_app, !length_app. simpl. lia.
Qed.

Lemma registry_inv_setup (env : SetupEnv) (h : HomeAssistant) (e : ConfigEntry) :
  registry_inv h → registry_inv (async_setup_entry env (h, e)).2.1.
Proof.
  intros Hinv.
  destruct (setup_cases env h e)
    as (h1 & Hsame & _ & [[-> _]|(r & Hr & -> & _)]).
  - by eapply registry_inv_same.
  - apply registry_inv_registered_state; [|done]. by eapply registry_inv_same.
Qed.

(** The two ways [async_unload_entry] ends: without a change, or with the
    entry popped from the registry. *)
Lemma unload_cases (unload_platforms : Result bool) (h : HomeAssistant)
    (e : ConfigEntry) :
  (async_unload_entry unload_platforms (h, e)).2.2 = e ∧
  (((async_unload_entry unload_platforms (h, e)).2.1 = h ∧
    (async_unload_entry unload_platforms (h, e)).1 ≠ Return true) ∨
   (∃ reg,
      hass_data h !! DOMAIN = Some reg ∧
      Dict.contains (entry_id e) reg = true ∧
      (async_unload_entry unload_platforms (h, e)).1 = Return true ∧
      (async_unload_entry unload_platforms (h, e)).2.1 =
        unloaded_state (entry_id e) reg h)).
Proof.
  unfold async_unload_entry. run.
  destruct unload_platforms as [[]|err]; simpl; [|by auto..].
  unfold pop_coordinator.
  destruct (hass_data h !! DOMAIN) as [reg|] eqn:Hreg; simpl; [|by auto].
  destruct (Dict.contains (entry_id e) reg) eqn:Hin; simpl; [|by auto].
  rewrite lookup_insert_eq. unfold unloaded_state.
  destruct (Dict.remove (entry_id e) reg) eqn:Hrem; simpl.
  - split; [done|]. right. exists reg. by rewrite Hrem.
  - split; [done|]. right. exists reg. by rewrite Hrem.
Qed.

Lemma registry_inv_unloaded_state (h : HomeAssistant) (eid : string)
    (reg : Dict.t string PyObj) :
  registry_inv h →
  hass_data h !! DOMAIN = Some reg →
  registry_inv (unloaded_state eid reg h).
Proof.
  intros [] Hreg. unfold unloaded_state.
  assert ((DOMAIN, SERVICE_RENAME_LIST) ∈ services h) as Hservice.
  { apply inv_service0. by rewrite Hreg. }
  rewrite bool_decide_eq_true_2 in inv_trace0 by done.
  destruct (Dict.remove eid reg) as [|o reg'] eqn:Hrem.
  - split; simpl.
    + by rewrite lookup_delete_eq.
    + intros reg0. by rewrite lookup_delete_eq.
    + rewrite lookup_delete_eq.
      split; [by intros ?%not_elem_of_removed|by intros [? ?]].
    + intros r. unfold live_coordinators. simpl.
      rewrite lookup_delete_eq. simpl. by intros ?%not_elem_of_nil.
    + rewrite bool_decide_eq_false_2 by apply not_elem_of_removed.
      unfold registrations, removals in *.
      rewrite !filter_app, !length_app. simpl. lia.
  - split; simpl.
    + by rewrite lookup_insert_eq.
    + intros reg0. rewrite lookup_insert_eq. intros [= <-].
      rewrite <-Hrem. apply dict_wf_remove. by apply inv_wf0.
    + rewrite lookup_insert_eq. split; by eauto.
    + intros r Hr. apply inv_refs0.
      apply (live_coordinators_elem h reg r Hreg).
      apply (live_coordinators_elem _ (o :: reg') r) in Hr;
        [|simpl; by rewrite lookup_insert_eq].
      apply (dict_values_remove eid). by rewrite Hrem.
    + by rewrite bool_decide_eq_true_2 by done.
Qed.

Lemma registry_inv_unload (unload_platforms : Result bool)
    (h : HomeAssistant) (e : ConfigEntry) :
  registry_inv h →
  registry_inv (async_unload_entry unload_platforms (h, e)).2.1.
Proof.
  intros Hinv.
  destruct (unload_cases unload_platforms h e)
    as [_ [[-> _]|(reg & Hreg & _ & _ & ->)]]; [done|].
  by apply registry_inv_unloaded_state.
Qed.

Lemma registry_inv_init : registry_inv hass_init.
Proof.
  split; simpl.
  - by rewrite lookup_empty.
  - intros reg. by rewrite lookup_empty.
  - rewrite lookup_empty. split; [set_solver|by intros [? ?]].
  - intros r. unfold live_coordinators. simpl. rewrite lookup_empty. simpl.
    by intros ?%not_elem_of_nil.
  - by rewrite bool_decide_eq_false_2 by set_solver.
Qed.

Lemma registry_inv_step (h h' : HomeAssistant) :
  registry_inv h → step h h' → registry_inv h'.
Proof.
  intros Hinv Hstep. destruct Hstep.
  - by apply registry_inv_setup.
  - by apply registry_inv_unload.
  - eapply registry_inv_same; [done|apply same_registry_call].
  - eapply registry_inv_same; [done|apply same_registry_listener].
Qed.

Lemma registry_inv_reachable (h : HomeAssistant) :
  reachable h → registry_inv h.
Proof.
  unfold reachable. revert h.
  apply (rtc_ind_r (λ h, registry_inv h)); [apply registry_inv_init|].
  intros h h' _ Hstep Hinv. by eapply registry_inv_step.
Qed.

(** C8, as amended: in every state that set-ups, unloadings, service calls
    and option changes lead to from a fresh start, the registry invariant
    holds: the [rename_list] service is registered exactly when
    [hass.data[DOMAIN]] holds at least one entry, and it has been registered
    once since it was last removed.  From such a state, a set-up that succeeds leaves its
    coordinator in the registry under its entry id and registers the service
    only if it was not registered; an unloading that succeeds removes the
    entry, and removes the registry and the service when the entry was the
    last one, and leaves the service registered otherwise. *)
Theorem registry_invariant (h : HomeAssistant) :
  reachable h →
  registry_inv h ∧
  (∀ env e h' e',
     async_setup_entry env (h, e) = (Return true, (h', e')) →
     ∃ r,
       runtime_data e' = Some r ∧
       is_Some (store h' !! r) ∧
       registered_coordinator h' (entry_id e) = Some (ObjCoordinator r) ∧
       (DOMAIN, SERVICE_RENAME_LIST) ∈ services h' ∧
       trace h' =
         trace h ++
         (if bool_decide ((DOMAIN, SERVICE_RENAME_LIST) ∈ services h) then []
          else [EvRegister DOMAIN SERVICE_RENAME_LIST])) ∧
  (∀ unload_platforms e h' e',
     async_unload_entry unload_platforms (h, e) = (Return true, (h', e')) →
     ∃ reg,
       hass_data h !! DOMAIN = Some reg ∧
       entry_id e ∈ Dict.keys reg ∧
       registered_coordinator h' (entry_id e) = None ∧
       (if bool_decide (Dict.keys reg = [entry_id e]) then
          ((DOMAIN, SERVICE_RENAME_LIST) ∉ services h') ∧
          hass_data h' !! DOMAIN = None ∧
          trace h' = trace h ++ [EvRemove DOMAIN SERVICE_RENAME_LIST]
        else
          (DOMAIN, SERVICE_RENAME_LIST) ∈ services h' ∧
          hass_data h' !! DOMAIN = Some (Dict.remove (entry_id e) reg) ∧
          trace h' = trace h)).
Proof.
  intros Hinv%registry_inv_reachable. split; [done|]. split.
  - intros env e h' e' Hrun.
    destruct (setup_cases env h e)
      as (h1 & Hsame & Htrace & [[_ [err Herr]]|(r & Hr & Hstate & Hres)]).
    { rewrite Hrun in Herr. done. }
    rewrite Hrun in Hstate. simpl in Hstate. injection Hstate as -> ->.
    destruct Hsame. exists r. split; [done|].
    unfold registered_state, registered_coordinator. simpl.
    rewrite sr_services0.
    destruct (bool_decide _) eqn:Hreg; simpl.
    + apply bool_decide_eq_true in Hreg.
      rewrite lookup_insert_eq. simpl. rewrite dict_get_set.
      split_and!; try done; [by rewrite sr_services0|].
      by rewrite Htrace, app_nil_r.
    + rewrite lookup_insert_eq. simpl. rewrite dict_get_set.
      split_and!; try done; [apply elem_of_registered|by rewrite Htrace].
  - intros unload_platforms e h' e' Hrun.
    destruct (unload_cases unload_platforms h e)
      as [_ [[_ Hres]|(reg & Hreg & Hin & _ & Hstate)]].
    { rewrite Hrun in Hres. done. }
    rewrite Hrun in Hstate. simpl in Hstate. subst h'.
    destruct Hinv. exists reg. split; [done|].
    split; [by apply dict_contains_keys|].
    pose proof (dict_remove_nil _ _ Hin) as Hnil.
    assert (Dict.get (entry_id e) (Dict.remove (entry_id e) reg) = None)
      as Hgone by (apply dict_get_remove; by apply inv_wf0).
    unfold unloaded_state, registered_coordinator.
    destruct (Dict.remove (entry_id e) reg) as [|o reg'] eqn:Hrem; simpl.
    + rewrite bool_decide_eq_true_2 by by apply Hnil.
      rewrite lookup_delete_eq. split_and!; try done.
      apply not_elem_of_removed.
    + rewrite bool_decide_eq_false_2 by (intros ?%Hnil; done).
      rewrite lookup_insert_eq. simpl. split_and!; try done.
      apply inv_service0. by rewrite Hreg.
Qed.

End integration_properties.

(** C5, as stated, fails: with the interval 86400000000000 in the options,
    which is one day more than [timedelta] can hold, the listener raises
    [OverflowError] and the coordinator keeps its interval of 120 seconds. *)
Lemma update_listener_overflow :
  let e := set_options {[ "scan_interval" := 86400000000000 ]} other_entry in
  (∃ err,
     @_async_update_listener sample_const (sample_hass, e)
       = (Raise err, (sample_hass, e)) ∧
     exn_class err = OverflowError) ∧
  update_interval <$> store sample_hass !! 1%nat
    = Some {| total_seconds := 120 |}.
Proof. split; [|reflexivity]. eexists. split; reflexivity. Qed.

Lemma update_listener_changes_only_interval_witness :
  let e := set_options {[ "scan_interval" := 300 ]} other_entry in
  update_interval other_coordinator = {| total_seconds := 120 |} ∧
  ∃ h' c',
    @_async_update_listener sample_const (sample_hass, e)
      = (Return tt, (h', e)) ∧
    store h' !! 1%nat = Some c' ∧
    update_interval c' = {| total_seconds := 300 |} ∧
    data c' = data other_coordinator ∧
    store h' !! 0%nat = Some sample_coordinator.
Proof.
  intros e. split; [reflexivity|].
  destruct (@update_listener_changes_only_interval sample_const
              sample_hass e 1%nat other_coordinator eq_refl eq_refl)
    as [Hin _].
  destruct Hin as (h' & c' & H1 & H2 & H3 & H4 & _ & _ & _ & H8 & _).
  { vm_compute. split; discriminate. }
  exists h', c'. split; [exact H1|]. split; [exact H2|].
  split; [exact H3|]. split; [exact H4|].
  rewrite H8 by discriminate. reflexivity.
Defined.

Lemma setup_failure_classification_witness :
  (@async_setup_entry sample_const sample_api env_bad_credentials
     (hass_init, sample_entry)).1
    = Raise (MkExn ConfigEntryAuthFailed "Invalid credentials"
               (Some (MkExn ListonicAuthError "401" None))) ∧
  (@async_setup_entry sample_const sample_api
     (env_refresh_fails (MkExn ConfigEntryAuthFailed "expired" None))
     (hass_init, sample_entry)).1
    = Raise (MkExn ConfigEntryAuthFailed "expired" None) ∧
  (@async_setup_entry sample_const sample_api
     (env_refresh_fails (MkExn (OtherException "TimeoutError") "timed out" None))
     (hass_init, sample_entry)).1
    = Raise (MkExn ConfigEntryNotReady
               "Failed to fetch initial data: timed out"
               (Some (MkExn (OtherException "TimeoutError") "timed out" None))).
Proof.
  split; [|split].
  - destruct (@setup_failure_classification sample_const sample_api
                env_bad_credentials hass_init sample_entry) as [Hauth _].
    exact (Hauth _ _ eq_refl eq_refl).
  - destruct (@setup_failure_classification sample_const sample_api
                (env_refresh_fails (MkExn ConfigEntryAuthFailed "expired" None))
                hass_init sample_entry) as [_ Hrefresh].
    exact (proj1 (Hrefresh _ _ _ eq_refl eq_refl) eq_refl).
  - destruct (@setup_failure_classification sample_const sample_api
                (env_refresh_fails
                   (MkExn (OtherException "TimeoutError") "timed out" None))
                hass_init sample_entry) as [_ Hrefresh].
    exact (proj2 (Hrefresh _ _ _ eq_refl eq_refl) eq_refl eq_refl).
Defined.

(** Membership in a list that is known, case by case. *)
Ltac each_member H :=
  vm_compute in H;
  repeat (apply elem_of_cons in H as [->|H]);
  [.. | by apply not_elem_of_nil in H].

(** C1, as stated, fails: list 999 is in no account of [sample_hass], and
    the service call to rename it returns normally instead of failing. *)
Lemma rename_unknown_list_does_not_fail :
  forallb (λ r, negb (holds_list sample_hass 999 r))
    (@live_coordinators sample_const sample_hass) = true ∧
  (@async_call_rename_list sample_const sample_api sample_builtins
     [(ATTR_LIST_ID, PyInt 999); (ATTR_NAME, PyStr "Weekly")]
     sample_hass).1 = Return tt.
Proof. split; reflexivity. Qed.

Lemma rename_unknown_list_logs_and_returns_witness :
  ∃ h',
    @async_rename_list sample_const sample_api
      (ServiceCall.mk [(ATTR_LIST_ID, PyInt 999); (ATTR_NAME, PyStr "Weekly")])
      sample_hass = (Return tt, h') ∧
    store h' = store sample_hass ∧
    trace h' =
      trace sample_hass ++
      [EvLog ERROR "List %s not found in any Listonic account" [PyInt 999]].
Proof.
  destruct (@rename_unknown_list_logs_and_returns sample_const sample_api
              sample_hass
              (ServiceCall.mk
                 [(ATTR_LIST_ID, PyInt 999); (ATTR_NAME, PyStr "Weekly")])
              999 (PyStr "Weekly")
              [("entry-1", ObjCoordinator 0%nat);
               ("entry-2", ObjCoordinator 1%nat)])
    as (h' & Hrun & Hstore & _ & _ & Htrace).
  - reflexivity.
  - reflexivity.
  - reflexivity.
  - intros r Hr. each_member Hr; reflexivity.
  - intros r Hr. each_member Hr; reflexivity.
  - exists h'. repeat split; assumption.
Defined.

Lemma rename_routes_to_the_owner_witness :
  ∃ h',
    @async_rename_list sample_const sample_api
      (ServiceCall.mk [(ATTR_LIST_ID, PyInt 789); (ATTR_NAME, PyStr "Chemist")])
      sample_hass = (Return tt, h') ∧
    trace h' =
      trace sample_hass ++ [EvUpdateList 1%nat (PyInt 789) (PyStr "Chemist")] ∧
    store h' !! 0%nat = Some sample_coordinator ∧
    store h' !! 1%nat =
      Some (set_data
              (Some [(789, ListonicList.mk 789 "Chemist" [] false)])
              other_coordinator).
Proof.
  destruct (@rename_routes_to_the_owner sample_const sample_api
              sample_hass
              (ServiceCall.mk
                 [(ATTR_LIST_ID, PyInt 789); (ATTR_NAME, PyStr "Chemist")])
              789 (PyStr "Chemist")
              [("entry-1", ObjCoordinator 0%nat);
               ("entry-2", ObjCoordinator 1%nat)]
              1%nat other_coordinator)
    as (h' & Hrun & Htrace & Hr & Hother & _).
  - reflexivity.
  - reflexivity.
  - reflexivity.
  - intros r Hr. each_member Hr; reflexivity.
  - vm_compute. set_solver.
  - reflexivity.
  - reflexivity.
  - intros r Hr. each_member Hr; [discriminate | reflexivity].
  - exists h'. split; [exact Hrun|]. split; [exact Htrace|]. split.
    + rewrite Hother by discriminate. reflexivity.
    + exact Hr.
Defined.

(** C6, as stated, fails: the schema accepts the list id 0 and the empty
    name, and the call reaches the handler. *)
Lemma rename_schema_accepts_zero_and_empty_name :
  @SERVICE_RENAME_LIST_SCHEMA sample_builtins
    [(ATTR_LIST_ID, PyInt 0); (ATTR_NAME, PyStr "")]
    = Return [(ATTR_LIST_ID, PyInt 0); (ATTR_NAME, PyStr "")] ∧
  (@async_call_rename_list sample_const sample_api sample_builtins
     [(ATTR_LIST_ID, PyInt 0); (ATTR_NAME, PyStr "")] sample_hass)
    = (Return tt,
       emit (EvLog ERROR "List %s not found in any Listonic account" [PyInt 0])
         sample_hass).
Proof. split; reflexivity. Qed.

(** A float is truncated before its range is checked: the schema takes
    the list id [-0.5] for 0 and accepts it, and refuses [-1.5]; as a name,
    a number is converted to a string. *)
Example rename_schema_truncates_floats :
  @SERVICE_RENAME_LIST_SCHEMA sample_builtins
    [(ATTR_LIST_ID, PyFloat (S754_finite true 4503599627370496 (-53)));
     (ATTR_NAME, PyFloat (S754_finite false 6755399441055744 (-52)))]
    = Return [(ATTR_LIST_ID, PyInt 0); (ATTR_NAME, PyStr "1.5")] ∧
  raised (@SERVICE_RENAME_LIST_SCHEMA sample_builtins
    [(ATTR_LIST_ID, PyFloat (S754_finite true 6755399441055744 (-52)));
     (ATTR_NAME, PyStr "Weekly")])
    = Some (vol.Invalid "invalid service data").
Proof. split; reflexivity. Qed.

(** An infinity as list id ends the validation with the [OverflowError] of
    [int], not with a validation error. *)
Example rename_schema_overflows_on_infinity :
  exn_class <$> raised (@SERVICE_RENAME_LIST_SCHEMA sample_builtins
    [(ATTR_LIST_ID, PyFloat (S754_infinity false)); (ATTR_NAME, PyStr "Weekly")])
    = Some OverflowError.
Proof. reflexivity. Qed.

Lemma rename_schema_accepts_nonnegative_ids_witness :
  (∃ z s,
     @SERVICE_RENAME_LIST_SCHEMA sample_builtins
       [(ATTR_NAME, PyInt 7); (ATTR_LIST_ID, PyStr " +4_2 ")]
       = Return [(ATTR_NAME, PyStr s); (ATTR_LIST_ID, PyInt z)] ∧ 0 ≤ z ∧
     @vol.Coerce_int sample_builtins (PyStr " +4_2 ") = Return (PyInt z)) ∧
  (∃ err,
     @SERVICE_RENAME_LIST_SCHEMA sample_builtins
       [(ATTR_LIST_ID, PyStr "-5"); (ATTR_NAME, PyStr "Weekly")] = Raise err ∧
     @async_call_rename_list sample_const sample_api sample_builtins
       [(ATTR_LIST_ID, PyStr "-5"); (ATTR_NAME, PyStr "Weekly")] sample_hass
       = (Raise err, sample_hass)).
Proof.
  split.
  - destruct (@rename_schema_accepts_nonnegative_ids sample_const sample_api
                sample_builtins
                [(ATTR_NAME, PyInt 7); (ATTR_LIST_ID, PyStr " +4_2 ")])
      as (Hacc & _ & _).
    destruct (Hacc _ eq_refl)
      as (v & n & z & s & Hv & Hn & Hcoerce & Hpos & Hstr & Hz & Hs).
    exists z, s. vm_compute in Hv. injection Hv as <-.
    vm_compute in Hz, Hs. injection Hz as <-. injection Hs as <-. done.
  - destruct (@rename_schema_accepts_nonnegative_ids sample_const sample_api
                sample_builtins
                [(ATTR_LIST_ID, PyStr "-5"); (ATTR_NAME, PyStr "Weekly")])
      as (_ & Hneg & Hcall).
    destruct (Hneg (PyStr "-5") (-5) eq_refl eq_refl ltac:(lia)) as [err Herr].
    exists err. split; [exact Herr|].
    apply Hcall; [|exact Herr]. vm_compute. set_solver.
Defined.

(** The registry from the first set-up to the last unloading: the service
    is registered once, with the first account, and removed with the
    last. *)
Example two_accounts_registry :
  hass_data two_accounts !! "listonic" =
    Some [("entry-1", ObjCoordinator 0%nat); ("entry-2", ObjCoordinator 1%nat)] ∧
  trace two_accounts = [EvRegister "listonic" "rename_list"].
Proof. split; reflexivity. Qed.

Example two_accounts_unloaded :
  let h1 := (@async_unload_entry sample_const (Return true)
               (two_accounts, sample_entry)).2.1 in
  let h2 := (@async_unload_entry sample_const (Return true)
               (h1, other_entry)).2.1 in
  hass_data h1 !! "listonic" = Some [("entry-2", ObjCoordinator 1%nat)] ∧
  elements (services h1) = [("listonic", "rename_list")] ∧
  hass_data h2 = ∅ ∧
  services h2 = ∅ ∧
  trace h2 =
    [EvRegister "listonic" "rename_list"; EvRemove "listonic" "rename_list"].
Proof. repeat split; reflexivity. Qed.

(** An unloading whose platforms do not unload changes nothing. *)
Example unload_refused :
  @async_unload_entry sample_const (Return false) (two_accounts, sample_entry)
    = (Return false, (two_accounts, sample_entry)).
Proof. reflexivity. Qed.

Lemma registry_invariant_witness :
  @reachable sample_const sample_api sample_builtins two_accounts ∧
  @registry_inv sample_const two_accounts ∧
  (∃ h',
     @async_unload_entry sample_const (Return true) (two_accounts, sample_entry)
       = (Return true, (h', sample_entry)) ∧
     @registered_coordinator sample_const h' "entry-1" = None ∧
     ("listonic", "rename_list") ∈ services h' ∧
     trace h' = trace two_accounts).
Proof.
  assert (@reachable sample_const sample_api sample_builtins two_accounts)
    as Hreach.
  { apply (rtc_l _ _ one_account).
    - apply (@step_setup sample_const sample_api sample_builtins
               sample_env hass_init sample_entry).
    - apply rtc_once.
      apply (@step_setup sample_const sample_api sample_builtins
               sample_env one_account other_entry). }
  split; [exact Hreach|].
  destruct (@registry_invariant sample_const sample_api sample_builtins
              two_accounts Hreach) as (Hinv & _ & Hunload).
  split; [exact Hinv|].
  eexists. split; [reflexivity|].
  destruct (Hunload (Return true) sample_entry _ _ eq_refl)
    as (reg & Hreg & _ & Hgone & Hrest).
  vm_compute in Hreg. injection Hreg as <-.
  rewrite bool_decide_eq_false_2 in Hrest by discriminate.
  destruct Hrest as (Hservice & _ & Htrace).
  split; [exact Hgone|]. split; [exact Hservice|exact Htrace].
Defined.

(** C8, as stated, fails: from a fresh start, a set-up whose forwarding to
    the platforms raises does not succeed, so that no entry is loaded after
    it; yet the state it leaves is one the host goes on from, and in it the
    service is registered and the coordinator of the entry is in the
    registry. *)
Lemma setup_forward_failure_leaves_service :
  let err := MkExn (OtherException "PlatformError") "sensor" None in
  let outcome :=
    @async_setup_entry sample_const sample_api (env_forward_fails err)
      (hass_init, sample_entry) in
  outcome.1 = Raise err ∧
  @reachable sample_const sample_api sample_builtins outcome.2.1 ∧
  (("listonic", "rename_list") ∈ services outcome.2.1) ∧
  @registered_coordinator sample_const outcome.2.1 "entry-1"
    = Some (ObjCoordinator 0%nat).
Proof.
  intros err outcome. split; [reflexivity|]. split.
  { apply rtc_once.
    apply (@step_setup sample_const sample_api sample_builtins
             (env_forward_fails err) hass_init sample_entry). }
  split; [|reflexivity]. vm_compute. set_solver.
Qed.

(** ** Properties of the diagnostics snapshot *)

Section diagnostics_properties.
Context `{Const}.

(** The details of the lists hold numbers and flags, and no string. *)
Lemma occurs_list_details (s : string) (lists : Dict.t Z ListonicList.t) :
  ¬ occurs s (PyList ((λ '(list_id, l), list_details list_id l) <$> lists)).
Proof.
  induction lists as [|[list_id l] lists IH]; simpl; [tauto|].
  simpl in IH. tauto.
Qed.

(** C4: the values under [CONF_EMAIL] and [CONF_PASSWORD] of the
    [config_entry] section are the marker, and so differ from every
    credential that is not the text of the marker itself; the only strings
    in the snapshot are the marker and the time of the last update, so that
    no string of it comes from the credentials; and the snapshot does not
    depend on the credentials: with other credentials in the entry and in
    the client, the snapshot is the same. *)
Theorem snapshot_independent_of_credentials (e : ConfigEntry)
    (c : ListonicDataUpdateCoordinator) :
  let snapshot := diagnostics_snapshot e c in
  py_path ["config_entry"; CONF_EMAIL] snapshot = Some (PyStr REDACTED) ∧
  py_path ["config_entry"; CONF_PASSWORD] snapshot = Some (PyStr REDACTED) ∧
  (email (entry_data e) ≠ REDACTED →
   py_path ["config_entry"; CONF_EMAIL] snapshot
     ≠ Some (PyStr (email (entry_data e)))) ∧
  (password (entry_data e) ≠ REDACTED →
   py_path ["config_entry"; CONF_PASSWORD] snapshot
     ≠ Some (PyStr (password (entry_data e)))) ∧
  (∀ s, occurs s snapshot →
     s = REDACTED ∨
     ∃ t, last_update_success_time c = Some t ∧ s = isoformat t) ∧
  (∀ em pw,
     diagnostics_snapshot (set_credentials em pw e)
       (set_client_credentials em pw c) = snapshot).
Proof.
  assert (bool_decide (CONF_EMAIL ∈ [CONF_EMAIL; CONF_PASSWORD]) = true)
    as Hemail by (apply bool_decide_eq_true; set_solver).
  assert (bool_decide (CONF_PASSWORD ∈ [CONF_EMAIL; CONF_PASSWORD]) = true)
    as Hpassword by (apply bool_decide_eq_true; set_solver).
  assert (py_path ["config_entry"; CONF_EMAIL] (diagnostics_snapshot e c)
            = Some (PyStr REDACTED)) as Hvalue_email.
  { unfold diagnostics_snapshot, redact, entry_data_dict, py_path. simpl.
    rewrite Hemail. by rewrite decide_True. }
  assert (py_path ["config_entry"; CONF_PASSWORD] (diagnostics_snapshot e c)
            = Some (PyStr REDACTED)) as Hvalue_password.
  { unfold diagnostics_snapshot, redact, entry_data_dict, py_path. simpl.
    rewrite Hemail, Hpassword.
    destruct (decide (CONF_PASSWORD = CONF_EMAIL)); [done|].
    by rewrite decide_True. }
  intros snapshot. subst snapshot. split_and!.
  - exact Hvalue_email.
  - exact Hvalue_password.
  - rewrite Hvalue_email. intros Hne [= Heq]. by apply Hne.
  - rewrite Hvalue_password. intros Hne [= Heq]. by apply Hne.
  - intros s Hs. unfold diagnostics_snapshot, redact, entry_data_dict in Hs.
    simpl in Hs. rewrite Hemail, Hpassword in Hs.
    destruct Hs as [[Hs|[Hs|[]]]|[[[]|[Hs|[]]]|[[[]|[Hs|[[]|[]]]]|[Hs|[]]]]].
    + by left.
    + by left.
    + by apply occurs_list_details in Hs.
    + destruct (last_update_success_time c) as [t|]; [|done].
      right. by exists t.
    + destruct Hs as [[]|[[]|[]]].
  - intros em pw.
    unfold diagnostics_snapshot, redact, entry_data_dict. simpl.
    by rewrite Hemail, Hpassword.
Qed.

(** C7: the snapshot reports [has_token] and [has_refresh_token] as true
    exactly when the client holds the token; [last_update_success] as the
    flag of the coordinator; [last_update_time] as [None] exactly when there
    was no successful update, and as the time in ISO format otherwise; and
    [update_interval_seconds] as the scan interval of the options, or the
    default when the options have none. *)
Theorem snapshot_reports_coordinator_state (e : ConfigEntry)
    (c : ListonicDataUpdateCoordinator) :
  let s := diagnostics_snapshot e c in
  (∃ b, py_path ["authentication"; "has_token"] s = Some (PyBool b) ∧
        (b = true ↔ is_Some (_token (client c)))) ∧
  (∃ b, py_path ["authentication"; "has_refresh_token"] s = Some (PyBool b) ∧
        (b = true ↔ is_Some (_refresh_token (client c)))) ∧
  py_path ["coordinator"; "last_update_success"] s
    = Some (PyBool (last_update_success c)) ∧
  (py_path ["coordinator"; "last_update_time"] s = Some PyNone ↔
   last_update_success_time c = None) ∧
  py_path ["coordinator"; "last_update_time"] s
    = Some match last_update_success_time c with
           | Some t => PyStr (isoformat t)
           | None => PyNone
           end ∧
  py_path ["coordinator"; "update_interval_seconds"] s
    = Some (PyInt match options e !! CONF_SCAN_INTERVAL with
                  | Some n => n
                  | None => DEFAULT_SCAN_INTERVAL
                  end).
Proof.
  simpl. unfold py_path. simpl. split_and!.
  - eexists. split; [done|]. apply bool_decide_eq_true.
  - eexists. split; [done|]. apply bool_decide_eq_true.
  - done.
  - destruct (last_update_success_time c); naive_solver.
  - done.
  - unfold scan_interval_of. by destruct (options e !! _).
Qed.

(** C9: for a coordinator whose data is [None] or empty, the diagnostics
    function returns, and the [lists] section of its snapshot has the count
    0 and no details. *)
Theorem diagnostics_without_lists (h : HomeAssistant) (e : ConfigEntry)
    (r : ref) (c : ListonicDataUpdateCoordinator) :
  runtime_data e = Some r →
  store h !! r = Some c →
  data c = None ∨ data c = Some [] →
  ∃ s,
    async_get_config_entry_diagnostics h e = Return s ∧
    py_path ["lists"] s =
      Some (PyDict [("count", PyInt 0); ("details", PyList [])]).
Proof.
  intros Hr Hc Hdata. unfold async_get_config_entry_diagnostics.
  rewrite Hr, Hc. eexists. split; [done|].
  unfold diagnostics_snapshot, py_path. simpl.
  by destruct Hdata as [-> | ->].
Qed.

End diagnostics_properties.

Lemma snapshot_independent_of_credentials_witness :
  let snapshot :=
    @diagnostics_snapshot sample_const sample_entry sample_coordinator in
  py_path ["config_entry"; "email"] snapshot
    ≠ Some (PyStr "user@example.com") ∧
  py_path ["config_entry"; "password"] snapshot
    ≠ Some (PyStr "supersecretpassword") ∧
  ¬ occurs "user@example.com" snapshot ∧
  ¬ occurs "supersecretpassword" snapshot.
Proof.
  destruct (@snapshot_independent_of_credentials sample_const sample_entry
              sample_coordinator) as (_ & _ & Hemail & Hpassword & Hoccurs & _).
  split; [exact (Hemail ltac:(discriminate))|].
  split; [exact (Hpassword ltac:(discriminate))|].
  split; intros [Hs|(t & Ht & Hs)]%Hoccurs; try discriminate Hs;
    injection Ht as <-; vm_compute in Hs; discriminate Hs.
Defined.

Lemma diagnostics_without_lists_witness :
  ∃ s,
    @async_get_config_entry_diagnostics sample_const
      (set_store (λ _, [set_data None sample_coordinator]) hass_init)
      sample_entry = Return s ∧
    py_path ["lists"] s =
      Some (PyDict [("count", PyInt 0); ("details", PyList [])]).
Proof.
  apply (@diagnostics_without_lists sample_const
           (set_store (λ _, [set_data None sample_coordinator]) hass_init)
           sample_entry 0%nat (set_data None sample_coordinator));
    [reflexivity | reflexivity | left; reflexivity].
Defined.

(** The checks of [tests/test_diagnostics.py] on its fixtures. *)
Example test_sensitive_data_is_redacted :
  py_path ["config_entry"]
    (@diagnostics_snapshot sample_const sample_entry sample_coordinator)
    = Some (PyDict [("email", PyStr "**REDACTED**");
                    ("password", PyStr "**REDACTED**")]).
Proof. reflexivity. Qed.

Example test_list_info_includes_counts :
  py_path ["lists"]
    (@diagnostics_snapshot sample_const sample_entry sample_coordinator)
    = Some (PyDict
        [("count", PyInt 2);
         ("details", PyList
            [PyDict [("list_id", PyInt 123); ("item_count", PyInt 3);
                     ("checked_count", PyInt 2); ("unchecked_count", PyInt 1);
                     ("is_archived", PyBool false)];
             PyDict [("list_id", PyInt 456); ("item_count", PyInt 1);
                     ("checked_count", PyInt 0); ("unchecked_count", PyInt 1);
                     ("is_archived", PyBool true)]])]).
Proof. reflexivity. Qed.

Example test_coordinator_info_includes_update_status :
  py_path ["coordinator"]
    (@diagnostics_snapshot sample_const sample_entry sample_coordinator)
    = Some (PyDict [("last_update_success", PyBool true);
                    ("last_update_time", PyStr "2024-01-15T10:30:00");
                    ("update_interval_seconds", PyInt 30)]).
Proof. reflexivity. Qed.

Example test_scan_interval_from_options_is_used :
  py_path ["coordinator"; "update_interval_seconds"]
    (@diagnostics_snapshot sample_const other_entry other_coordinator)
    = Some (PyInt 120).
Proof. reflexivity. Qed.

Example test_authentication_info :
  py_path ["authentication"]
    (@diagnostics_snapshot sample_const other_entry other_coordinator)
    = Some (PyDict [("has_token", PyBool true);
                    ("has_refresh_token", PyBool false)]).
Proof. reflexivity. Qed.

(** ** Properties of [check_credentials.py] *)

Module check_credentials_properties.
Import check_credentials.

Section script_properties.
Context `{Re}.
Variable net : Net.

#[local] Arguments current_credentials_loop : simpl never.
#[local] Arguments update_credentials_loop : simpl never.
#[local] Arguments dict_eqb : simpl never.

(** Fetching the page changes neither the file nor the terminal, and does
    not depend on them. *)
Lemma get_app_js_url_run (w w0 : World) :
  get_app_js_url net w = ((get_app_js_url net w0).1, w).
Proof.
  unfold get_app_js_url. run.
  destruct (get_text net WEBAPP_URL) as [text|err]; simpl; [|done].
  by destruct (re_search _ _ _).
Qed.

(** [main] returns 1 and writes nothing when the bundle is not located or
    holds no credentials; with credentials extracted from the bundle, it
    returns 0 and writes nothing when they equal those of [const.py], and
    when they differ and [re.sub] makes the substitutions, it writes
    [const.py] once, with the new credentials substituted, and returns 2;
    and in no other case does it write. *)
Theorem main_writes_only_on_change (w : World) :
  ((get_app_js_url net w).1 = Return None →
   ∃ w', main net w = (Return 1, w') ∧
         const_file w' = const_file w ∧ writes w' = writes w) ∧
  (∀ url js,
     (get_app_js_url net w).1 = Return (Some url) →
     get_text net url = Return js →
     extract_credentials js = None →
     ∃ w', main net w = (Return 1, w') ∧
           const_file w' = const_file w ∧ writes w' = writes w) ∧
  (∀ url js new_credentials content,
     (get_app_js_url net w).1 = Return (Some url) →
     get_text net url = Return js →
     extract_credentials js = Some new_credentials →
     const_file w = Some content →
     let current_credentials := current_credentials_loop content VARIABLES [] in
     (dict_eqb new_credentials current_credentials = true →
      ∃ w', main net w = (Return 0, w') ∧
            const_file w' = const_file w ∧ writes w' = writes w) ∧
     (∀ content',
        dict_eqb new_credentials current_credentials = false →
        update_credentials_loop new_credentials VARIABLES content
          = Return content' →
        ∃ w', main net w = (Return 2, w') ∧
              const_file w' = Some content' ∧
              writes w' = writes w ++ [content'])) ∧
  (∀ result w',
     main net w = (result, w') →
     writes w' ≠ writes w ∨ const_file w' ≠ const_file w →
     result = Return 2 ∧
     ∃ url js new_credentials content,
       (get_app_js_url net w).1 = Return (Some url) ∧
       get_text net url = Return js ∧
       extract_credentials js = Some new_credentials ∧
       const_file w = Some content ∧
       dict_eqb new_credentials
         (current_credentials_loop content VARIABLES []) = false).
Proof.
  remember (get_app_js_url net w).1 as found eqn:Hfound.
  unfold main, print.
  unfold mbind, M_bind, bind, modify. simpl.
  rewrite (get_app_js_url_run _ w), <-Hfound. clear Hfound.
  destruct found as [found|err]; run; split_and!.
  5-7: done.
  5: { intros result w' [= <- <-] Hchanged. by destruct Hchanged. }
  - intros [= ->]. simpl. eauto.
  - intros url js [= ->] Hjs Hnone. simpl. rewrite Hjs. simpl. rewrite Hnone.
    simpl. eauto.
  - intros url js new_credentials content [= ->] Hjs Hnew Hcontent. simpl.
    rewrite Hjs. simpl. rewrite Hnew.
    unfold extract_credentials in Hnew.
    destruct (re_search _ false js) as [m|]; [|done].
    injection Hnew as <-. unfold item. simpl.
    unfold get_current_credentials, update_credentials, read_text,
      write_text. run.
    rewrite Hcontent. simpl. split.
    + intros ->. simpl. eauto.
    + intros content' -> Hloop. simpl. rewrite Hloop. simpl. eauto.
  - intros result w' Hmain Hchanged.
    destruct found as [url|]; simpl in Hmain.
    + destruct (get_text net url) as [js|err] eqn:Hjs; simpl in Hmain.
      * destruct (extract_credentials js) as [new_credentials|] eqn:Hnew.
        -- pose proof Hnew as Hextract. unfold extract_credentials in Hnew.
           destruct (re_search _ false js) as [m|]; [|done].
           injection Hnew as <-. unfold item in Hmain. simpl in Hmain.
           unfold get_current_credentials, update_credentials, read_text,
             write_text in Hmain. run.
           destruct (const_file w) as [content|] eqn:Hcontent;
             simpl in Hmain.
           ++ destruct (dict_eqb _ _) eqn:Heq; simpl in Hmain.
              ** injection Hmain as <- <-. simpl in Hchanged.
                 by destruct Hchanged.
              ** destruct (update_credentials_loop _ _ _) as [content'|err];
                   simpl in Hmain.
                 --- injection Hmain as <- <-. split; [done|].
                     by eexists url, js, _, content.
                 --- injection Hmain as <- <-. simpl in Hchanged.
                     by destruct Hchanged.
           ++ injection Hmain as <- <-. simpl in Hchanged.
              by destruct Hchanged.
        -- simpl in Hmain. injection Hmain as <- <-. by destruct Hchanged.
      * injection Hmain as <- <-. by destruct Hchanged.
    + injection Hmain as <- <-. by destruct Hchanged.
Qed.

(** The loop of [update_credentials] raises what the first substitution
    that [re.sub] refuses raises. *)
Lemma update_credentials_loop_raises (new_credentials : Dict.t string string)
    (vars : list (string * string)) (content : string) (err : Exn) :
  update_credentials_loop new_credentials vars content = Raise err →
  ∃ var_name key value text,
    (var_name, key) ∈ vars ∧
    Dict.get key new_credentials = Some value ∧
    re_sub (replacement_pattern var_name) (replacement_template value)
      text true = Raise err.
Proof.
  revert content. induction vars as [|[var_name key] vars IH]; intros content.
  { done. }
  change (update_credentials_loop new_credentials ((var_name, key) :: vars)
            content)
    with (match Dict.get key new_credentials with
          | Some value =>
              match re_sub (replacement_pattern var_name)
                      (replacement_template value) content true with
              | Return content' =>
                  update_credentials_loop new_credentials vars content'
              | Raise e => Raise e
              end
          | None => update_credentials_loop new_credentials vars content
          end).
  destruct (Dict.get key new_credentials) as [value|] eqn:Hvalue.
  - destruct (re_sub _ _ content true) as [content'|e] eqn:Hsub.
    + intros (v & k & x & text & Hin & Hget & Hraise)%IH.
      exists v, k, x, text. split; [by right|done].
    + intros [= ->]. exists var_name, key, value, content.
      split; [by left|done].
  - intros (v & k & x & text & Hin & Hget & Hraise)%IH.
    exists v, k, x, text. split; [by right|done].
Qed.

(** C10, where the code fails: when the credentials of the bundle differ
    from those of [const.py] and [re.sub] refuses the template made of one
    of them, [main] does not write the file and return 2: it ends with the
    exception of [re.sub], having written nothing. *)
Theorem main_raises_on_refused_template (w : World) (url js content : string)
    (new_credentials : Dict.t string string) (err : Exn) :
  (get_app_js_url net w).1 = Return (Some url) →
  get_text net url = Return js →
  extract_credentials js = Some new_credentials →
  const_file w = Some content →
  dict_eqb new_credentials (current_credentials_loop content VARIABLES [])
    = false →
  update_credentials_loop new_credentials VARIABLES content = Raise err →
  (∃ w', main net w = (Raise err, w') ∧
         const_file w' = const_file w ∧ writes w' = writes w) ∧
  (∃ var_name key value text,
     (var_name, key) ∈ VARIABLES ∧
     Dict.get key new_credentials = Some value ∧
     re_sub (replacement_pattern var_name) (replacement_template value)
       text true = Raise err).
Proof.
  intros Hfound Hjs Hnew Hcontent Hdiffer Hraise.
  split; [|by eapply update_credentials_loop_raises].
  unfold main, print.
  unfold mbind, M_bind, bind, modify. simpl.
  rewrite (get_app_js_url_run _ w), Hfound. run.
  rewrite Hjs. simpl. rewrite Hnew.
  unfold extract_credentials in Hnew.
  destruct (re_search _ false js) as [m|]; [|done].
  injection Hnew as <-. unfold item. simpl.
  unfold get_current_credentials, update_credentials, read_text,
    write_text. run.
  rewrite Hcontent. simpl. rewrite Hdiffer. simpl. rewrite Hraise. simpl.
  eauto.
Qed.

End script_properties.
End check_credentials_properties.

Lemma main_writes_only_on_change_witness :
  (∃ w', @check_credentials.main check_credentials.sample_re
           check_credentials.net_without_bundle check_credentials.sample_world
           = (Return 1, w') ∧
         check_credentials.writes w' = []) ∧
  (∃ w', @check_credentials.main check_credentials.sample_re
           (check_credentials.sample_net "bundle-v1")
           check_credentials.sample_world
           = (Return 0, w') ∧
         check_credentials.writes w' = []) ∧
  (∃ w', @check_credentials.main check_credentials.sample_re
           (check_credentials.sample_net "bundle-v2")
           check_credentials.sample_world
           = (Return 2, w') ∧
         check_credentials.const_file w' = Some "const-v2" ∧
         check_credentials.writes w' = ["const-v2"]).
Proof.
  split; [|split].
  - destruct (@check_credentials_properties.main_writes_only_on_change
                check_credentials.sample_re
                check_credentials.net_without_bundle
                check_credentials.sample_world) as (Hnone & _).
    destruct (Hnone eq_refl) as (w' & Hmain & _ & Hwrites).
    by exists w'.
  - destruct (@check_credentials_properties.main_writes_only_on_change
                check_credentials.sample_re
                (check_credentials.sample_net "bundle-v1")
                check_credentials.sample_world) as (_ & _ & Hfound & _).
    destruct (Hfound _ "bundle-v1" _ "const-v1" eq_refl eq_refl eq_refl eq_refl)
      as [Hsame _].
    destruct (Hsame eq_refl) as (w' & Hmain & _ & Hwrites).
    by exists w'.
  - destruct (@check_credentials_properties.main_writes_only_on_change
                check_credentials.sample_re
                (check_credentials.sample_net "bundle-v2")
                check_credentials.sample_world) as (_ & _ & Hfound & _).
    destruct (Hfound _ "bundle-v2" _ "const-v1" eq_refl eq_refl eq_refl eq_refl)
      as [_ Hchanged].
    destruct (Hchanged "const-v2" eq_refl eq_refl)
      as (w' & Hmain & Hfile & Hwrites).
    by exists w'.
Defined.

(** The failing run: the bundle [bundle-v3] holds a client secret with a
    backslash before the letter [q].  The credentials differ from those of
    [const.py], and [main] ends with [re.error], the file unwritten. *)
Lemma main_raises_on_refused_template_witness :
  @check_credentials.extract_credentials check_credentials.sample_re "bundle-v3"
    = Some [("client_id", "listonicv2"); ("client_secret", "ab\qcd");
            ("redirect_uri", "https://app.listonic.com/cb")] ∧
  ∃ w',
    @check_credentials.main check_credentials.sample_re
      (check_credentials.sample_net "bundle-v3") check_credentials.sample_world
      = (Raise (MkExn ReError "bad escape" None), w') ∧
    check_credentials.const_file w' = Some "const-v1" ∧
    check_credentials.writes w' = [].
Proof.
  split; [reflexivity|].
  destruct (@check_credentials_properties.main_raises_on_refused_template
              check_credentials.sample_re
              (check_credentials.sample_net "bundle-v3")
              check_credentials.sample_world
              _ "bundle-v3" "const-v1" _ (MkExn ReError "bad escape" None)
              eq_refl eq_refl eq_refl eq_refl eq_refl eq_refl)
    as [(w' & Hmain & Hfile & Hwrites) _].
  by exists w'.
Defined.

(** After the update, the credentials of [const.py] are those of the
    bundle: a second run finds nothing to change. *)
Example main_update_then_unchanged :
  let w1 := (@check_credentials.main check_credentials.sample_re
               (check_credentials.sample_net "bundle-v2")
               check_credentials.sample_world).2 in
  (@check_credentials.main check_credentials.sample_re
     (check_credentials.sample_net "bundle-v2") w1).1 = Return 0 ∧
  check_credentials.writes
    (@check_credentials.main check_credentials.sample_re
       (check_credentials.sample_net "bundle-v2") w1).2 = ["const-v2"].
Proof. split; reflexivity. Qed.

(** ** Further properties of dictionaries *)

Section dict_more_properties.
Context {K V : Type} `{EqDecision K}.
Implicit Types (d : list (K * V)) (k : K) (v : V).

Lemma dict_get_set_ne k k' v d :
  k ≠ k' → Dict.get k' (Dict.set k v d) = Dict.get k' d.
Proof.
  intros Hne. induction d as [|[k0 v0] d IH]; simpl.
  - by rewrite decide_False by done.
  - destruct (decide (k = k0)) as [->|Hk]; simpl.
    + by rewrite !decide_False by done.
    + by rewrite IH.
Qed.

Lemma dict_get_remove_ne k k' d :
  k ≠ k' → Dict.get k' (Dict.remove k d) = Dict.get k' d.
Proof.
  intros Hne. induction d as [|[k0 v0] d IH]; simpl; [done|].
  destruct (decide (k = k0)) as [->|Hk]; simpl.
  - by rewrite decide_False by done.
  - by rewrite IH.
Qed.

(** [d[k] = v] followed by [d.pop(k)] gives [d] back when [k] was new. *)
Lemma dict_remove_set k v d :
  k ∉ Dict.keys d → Dict.remove k (Dict.set k v d) = d.
Proof.
  unfold Dict.keys. induction d as [|[k0 v0] d IH]; simpl.
  - intros _. by rewrite decide_True.
  - intros [Hne Hd]%not_elem_of_cons.
    rewrite decide_False by done. simpl. rewrite decide_False by done.
    by rewrite IH.
Qed.

End dict_more_properties.

(** ** Further properties of [__init__.py] *)

Section integration_more_properties.
Context `{Const, CoordinatorApi, Builtins}.

(** The coordinator objects after a set-up: those before, and at most one
    new one after them. *)
Lemma setup_store (env : SetupEnv) (h : HomeAssistant) (e : ConfigEntry) :
  store (async_setup_entry env (h, e)).2.1 = store h ∨
  ∃ c, store (async_setup_entry env (h, e)).2.1 = store h ++ [c].
Proof.
  unfold async_setup_entry. run.
  destruct (authenticate env _) as [client [err|]]; simpl.
  { left. by destruct (is_ListonicAuthError err). }
  unfold first_refresh. simpl.
  rewrite lookup_app_r by done. rewrite Nat.sub_diag. simpl.
  assert (∀ c0 c : ListonicDataUpdateCoordinator,
            <[length (store h) := c]> (store h ++ [c0]) = store h ++ [c])
    as Hinsert.
  { intros c0 c. rewrite insert_app_r_alt by done.
    by rewrite Nat.sub_diag. }
  destruct (async_config_entry_first_refresh env _) as [c [err|]]; simpl.
  { right. exists c. rewrite <-(Hinsert (new_coordinator client e
                                           (scan_interval_of e)) c).
    destruct (is_ConfigEntryAuthFailed err); simpl; [done|].
    by destruct (is_Exception err). }
  right. exists c. rewrite <-(Hinsert (new_coordinator client e
                                         (scan_interval_of e)) c).
  destruct (bool_decide _); simpl;
    by destruct (async_forward_entry_setups env).
Qed.

(** What a set-up does once authentication and the first refresh have
    succeeded, whatever forwarding to the platforms does then. *)
Lemma setup_success_path (env : SetupEnv) (h : HomeAssistant) (e : ConfigEntry)
    (client : ListonicApiClient) (c : ListonicDataUpdateCoordinator) :
  authenticate env (new_client (email (entry_data e)) (password (entry_data e)))
    = (client, None) →
  async_config_entry_first_refresh env
    (new_coordinator client e (scan_interval_of e)) = (c, None) →
  async_setup_entry env (h, e) =
    (match async_forward_entry_setups env with
     | Some err => Raise err
     | None => Return true
     end,
     (registered_state (entry_id e) (length (store h))
        (set_store (λ st, st ++ [c]) h),
      register_update_listener (set_runtime_data (Some (length (store h))) e))).
Proof.
  intros Hauth Hrefresh. unfold async_setup_entry. run.
  rewrite Hauth. simpl. unfold first_refresh. simpl.
  rewrite lookup_app_r by done. rewrite Nat.sub_diag. simpl.
  rewrite Hrefresh. simpl.
  unfold registered_state, store_coordinator, set_hass_data, set_store. simpl.
  rewrite insert_app_r_alt by done. rewrite Nat.sub_diag. simpl.
  destruct (bool_decide _); simpl;
    by destruct (async_forward_entry_setups env).
Qed.

(** X1: a set-up that raises although forwarding to the platforms does not
    has failed in authentication or in the first refresh, and has registered
    nothing: [hass.data], the services, the events and the config entry are
    as before, and so is every coordinator there was. *)
Theorem setup_failure_registers_nothing (env : SetupEnv) (h h' : HomeAssistant)
    (e e' : ConfigEntry) (err : Exn) :
  async_forward_entry_setups env = None →
  async_setup_entry env (h, e) = (Raise err, (h', e')) →
  hass_data h' = hass_data h ∧
  services h' = services h ∧
  trace h' = trace h ∧
  e' = e ∧
  (∀ r c, store h !! r = Some c → store h' !! r = Some c).
Proof.
  intros Hforward Hrun.
  pose proof (setup_store env h e) as Hstore.
  destruct (setup_cases env h e)
    as (h1 & Hsame & Htrace & [[Hstate _]|(r & _ & _ & Hres)]).
  - rewrite Hrun in Hstate, Hstore. simpl in Hstate, Hstore.
    injection Hstate as -> ->. destruct Hsame.
    split_and!; try done.
    intros r c Hr. destruct Hstore as [->|[c0 ->]]; [done|].
    by apply lookup_app_l_Some.
  - rewrite Hrun, Hforward in Hres. done.
Qed.

(** X2: when authentication and the first refresh succeed and forwarding to
    the platforms raises, the set-up raises that exception and undoes
    nothing: the refreshed coordinator stays in [hass.data] under the entry
    id and in [entry.runtime_data], and the service stays registered. *)
Theorem setup_forward_failure_keeps_registration (env : SetupEnv)
    (h : HomeAssistant) (e : ConfigEntry) (client : ListonicApiClient)
    (c : ListonicDataUpdateCoordinator) (err : Exn) :
  authenticate env (new_client (email (entry_data e)) (password (entry_data e)))
    = (client, None) →
  async_config_entry_first_refresh env
    (new_coordinator client e (scan_interval_of e)) = (c, None) →
  async_forward_entry_setups env = Some err →
  ∃ h' e' r,
    async_setup_entry env (h, e) = (Raise err, (h', e')) ∧
    registered_coordinator h' (entry_id e) = Some (ObjCoordinator r) ∧
    runtime_data e' = Some r ∧
    store h' !! r = Some c ∧
    (DOMAIN, SERVICE_RENAME_LIST) ∈ services h'.
Proof.
  intros Hauth Hrefresh Hforward.
  rewrite (setup_success_path env h e client c Hauth Hrefresh), Hforward.
  eexists _, _, (length (store h)). split; [reflexivity|].
  unfold registered_state, registered_coordinator. simpl.
  assert ((store h ++ [c]) !! length (store h) = Some c) as Hc.
  { rewrite lookup_app_r by done. by rewrite Nat.sub_diag. }
  destruct (bool_decide _) eqn:Hreg; simpl;
    rewrite lookup_insert_eq; simpl; rewrite dict_get_set;
    split_and!; try done.
  - by apply bool_decide_eq_true in Hreg.
  - apply elem_of_registered.
Qed.

(** X3: a set-up, however it ends, leaves the other accounts alone: every
    coordinator there was is unchanged, the registry holds the same value
    under every other entry id, the other keys of [hass.data] are untouched
    and no service is removed. *)
Theorem setup_preserves_other_accounts (env : SetupEnv) (h : HomeAssistant)
    (e : ConfigEntry) :
  let h' := (async_setup_entry env (h, e)).2.1 in
  (∀ r c, store h !! r = Some c → store h' !! r = Some c) ∧
  (∀ eid, eid ≠ entry_id e →
     registered_coordinator h' eid = registered_coordinator h eid) ∧
  (∀ key, key ≠ DOMAIN → hass_data h' !! key = hass_data h !! key) ∧
  (∀ x, x ∈ services h → x ∈ services h').
Proof.
  simpl. split.
  { intros r c Hr. destruct (setup_store env h e) as [->|[c0 ->]]; [done|].
    by apply lookup_app_l_Some. }
  destruct (setup_cases env h e)
    as (h1 & [] & _ & [[-> _]|(r & _ & -> & _)]); simpl.
  { unfold registered_coordinator. rewrite sr_data0. by split_and!; try done;
      intros x; rewrite sr_services0. }
  unfold registered_state, registered_coordinator.
  assert (∀ eid, eid ≠ entry_id e →
    hass_data (store_coordinator (entry_id e) r h1) !! DOMAIN
      ≫= Dict.get eid = hass_data h !! DOMAIN ≫= Dict.get eid) as Hother.
  { intros eid Hne. simpl. rewrite lookup_insert_eq, sr_data0. simpl.
    rewrite dict_get_set_ne by done. by destruct (hass_data h !! DOMAIN). }
  assert (∀ key, key ≠ DOMAIN →
    hass_data (store_coordinator (entry_id e) r h1) !! key
      = hass_data h !! key) as Hkeys.
  { intros key Hne. simpl. rewrite lookup_insert_ne by done.
    by rewrite sr_data0. }
  destruct (bool_decide _); simpl in *; split_and!; try done.
  - intros x. by rewrite sr_services0.
  - intros x Hx. apply elem_of_union_r. by rewrite sr_services0.
Qed.

(** X4: unloading an entry that the registry does not hold, the platforms
    unloaded, raises [KeyError] for the missing key, [DOMAIN] or the entry
    id, and changes nothing. *)
Theorem unload_unknown_entry_raises (h : HomeAssistant) (e : ConfigEntry) :
  registered_coordinator h (entry_id e) = None →
  ∃ key,
    (key = DOMAIN ∨ key = entry_id e) ∧
    async_unload_entry (Return true) (h, e) =
      (Raise (MkExn KeyError key None), (h, e)).
Proof.
  unfold registered_coordinator, async_unload_entry, pop_coordinator. run.
  destruct (hass_data h !! DOMAIN) as [reg|]; simpl.
  - intros Hget. exists (entry_id e). split; [by right|].
    unfold Dict.contains. rewrite Hget. done.
  - intros _. exists DOMAIN. split; [by left|done].
Qed.

(** X5: [async_unload_entry] answers what unloading the platforms answered,
    unless that was [True] and the pop raised [KeyError]; and unless it
    returns [True] it changes neither Home Assistant nor the entry. *)
Theorem unload_answers_as_platforms (unload_platforms : Result bool)
    (h : HomeAssistant) (e : ConfigEntry) :
  let out := async_unload_entry unload_platforms (h, e) in
  (out.1 = unload_platforms ∨
   unload_platforms = Return true ∧
   ∃ key, out.1 = Raise (MkExn KeyError key None)) ∧
  (out.1 ≠ Return true → out.2 = (h, e)).
Proof.
  simpl. unfold async_unload_entry, pop_coordinator. run.
  destruct unload_platforms as [[]|err]; simpl; [|by auto..].
  destruct (hass_data h !! DOMAIN) as [reg|]; simpl;
    [|split; [right; split; [done|by eexists]|done]].
  destruct (Dict.contains (entry_id e) reg); simpl;
    [|split; [right; split; [done|by eexists]|done]].
  rewrite lookup_insert_eq.
  destruct (Dict.remove (entry_id e) reg); simpl;
    (split; [by left|intros Hne; by destruct Hne]).
Qed.

(** X6: an unloading, however it ends, leaves the coordinator objects and
    the entry as they are, keeps the value of the registry under every
    other entry id and the other keys of [hass.data], and registers no
    service. *)
Theorem unload_preserves_other_accounts (unload_platforms : Result bool)
    (h : HomeAssistant) (e : ConfigEntry) :
  let out := async_unload_entry unload_platforms (h, e) in
  store out.2.1 = store h ∧
  out.2.2 = e ∧
  (∀ eid, eid ≠ entry_id e →
     registered_coordinator out.2.1 eid = registered_coordinator h eid) ∧
  (∀ key, key ≠ DOMAIN → hass_data out.2.1 !! key = hass_data h !! key) ∧
  (∀ x, x ∈ services out.2.1 → x ∈ services h).
Proof.
  simpl.
  destruct (unload_cases unload_platforms h e)
    as [-> [[-> _]|(reg & Hreg & Hin & _ & ->)]]; [done|].
  unfold unloaded_state, registered_coordinator.
  pose proof (dict_remove_nil _ _ Hin) as Hnil.
  assert (∀ eid, eid ≠ entry_id e →
            Dict.get eid (Dict.remove (entry_id e) reg) = Dict.get eid reg)
    as Hother by (intros eid Hne; by apply dict_get_remove_ne).
  destruct (Dict.remove (entry_id e) reg) as [|o reg'] eqn:Hrem; simpl.
  - split_and!; try done.
    + intros eid Hne. rewrite lookup_delete_eq, Hreg. simpl.
      symmetry. apply dict_get_None.
      rewrite (proj1 Hnil eq_refl). by intros ->%list_elem_of_singleton.
    + intros key Hne. by rewrite lookup_delete_ne, lookup_insert_ne by done.
    + by intros x [Hx _]%elem_of_difference.
  - split_and!; try done.
    + intros eid Hne. rewrite lookup_insert_eq, Hreg.
      exact (Hother eid Hne).
    + intros key Hne. by rewrite lookup_insert_ne by done.
Qed.

(** X7: set-up and unloading undo each other on the registry.  From a state
    that keeps the registry invariant and does not hold the entry, a set-up
    that succeeds followed by an unloading whose platforms unload gives back
    the [hass.data] and the services there were. *)
Theorem setup_unload_round_trip (env : SetupEnv) (h h1 : HomeAssistant)
    (e e1 : ConfigEntry) :
  registry_inv h →
  registered_coordinator h (entry_id e) = None →
  async_setup_entry env (h, e) = (Return true, (h1, e1)) →
  ∃ h2,
    async_unload_entry (Return true) (h1, e1) = (Return true, (h2, e1)) ∧
    hass_data h2 = hass_data h ∧
    services h2 = services h.
Proof.
  intros [] Hnew Hrun.
  destruct (setup_cases env h e)
    as (h0 & [] & _ & [[_ [err Herr]]|(r & _ & Hstate & _)]).
  { rewrite Hrun in Herr. done. }
  rewrite Hrun in Hstate. simpl in Hstate. injection Hstate as -> ->.
  unfold registered_coordinator in Hnew.
  set (reg := default [] (hass_data h !! DOMAIN)).
  assert (entry_id e ∉ Dict.keys reg) as Hfresh.
  { apply dict_get_None. subst reg.
    by destruct (hass_data h !! DOMAIN). }
  assert (hass_data (registered_state (entry_id e) r h0) !! DOMAIN =
          Some (Dict.set (entry_id e) (ObjCoordinator r) reg)) as Hreg1.
  { unfold registered_state, async_register, store_coordinator. subst reg.
    simpl. destruct (bool_decide (_ ∈ services h0)); simpl;
      by rewrite lookup_insert_eq, sr_data0. }
  destruct (unload_cases (Return true)
              (registered_state (entry_id e) r h0)
              (register_update_listener (set_runtime_data (Some r) e)))
    as [He [[_ Hres]|(reg1 & Hreg1' & _ & Hres & Hstate)]]; simpl in *.
  - exfalso. apply Hres. clear Hres.
    unfold async_unload_entry, pop_coordinator. run. rewrite Hreg1. simpl.
    unfold Dict.contains. rewrite dict_get_set. simpl.
    rewrite lookup_insert_eq.
    by destruct (Dict.remove _ _).
  - rewrite Hreg1 in Hreg1'. injection Hreg1' as <-.
    eexists. split.
    { rewrite (surjective_pairing (async_unload_entry _ _)).
      rewrite (surjective_pairing (async_unload_entry _ _).2).
      by rewrite Hres, He. }
    rewrite Hstate. unfold unloaded_state.
    rewrite dict_remove_set by done.
    unfold registered_state. simpl. rewrite sr_services0. subst reg.
    destruct (hass_data h !! DOMAIN) as [reg0|] eqn:Hreg0; simpl.
    + assert ((DOMAIN, SERVICE_RENAME_LIST) ∈ services h) as Hservice.
      { apply inv_service0. by eauto. }
      rewrite bool_decide_eq_true_2 by done.
      destruct reg0 as [|o reg0]; [done|].
      unfold store_coordinator. simpl. rewrite sr_data0. split; [|done].
      rewrite insert_insert_eq. by apply insert_id.
    + assert ((DOMAIN, SERVICE_RENAME_LIST) ∉ services h) as Hservice.
      { intros [? ?]%inv_service0. done. }
      rewrite bool_decide_eq_false_2 by done.
      unfold async_register, store_coordinator. simpl.
      rewrite sr_data0, sr_services0. split.
      * rewrite insert_insert_eq, delete_insert_eq. by apply delete_id.
      * apply set_eq. intros x.
        rewrite elem_of_difference, elem_of_union, elem_of_singleton.
        split; [by intros [[->|?] ?]|].
        intros Hx. split; [by right|]. by intros ->.
Qed.

(** The loop passes over coordinators that hold a data mapping without the
    list, and over values that are no coordinators. *)
Lemma rename_loop_skip (h : HomeAssistant) (z : Z) (name : PyVal)
    (pre rest : list PyObj) :
  (∀ r, ObjCoordinator r ∈ pre →
        has_data h r = true ∧ holds_list h z r = false) →
  async_rename_list_loop (PyInt z) name (pre ++ rest) h =
    async_rename_list_loop (PyInt z) name rest h.
Proof.
  induction pre as [|o pre IH]; intros Hpre; [done|].
  assert (async_rename_list_loop (PyInt z) name (pre ++ rest) h =
          async_rename_list_loop (PyInt z) name rest h) as Hrest.
  { apply IH. intros r Hr. apply Hpre. by right. }
  destruct o as [r|v]; [|done]. simpl. run.
  destruct (Hpre r ltac:(left)) as [Hdata Hholds].
  unfold has_data, holds_list in *.
  destruct (store h !! r) as [c|]; [|done].
  destruct (data c) as [d|]; [|done]. simpl. by rewrite Hholds.
Qed.

(** X8: when several coordinators hold the list, the first one in the
    order of [hass.data[DOMAIN]] is the one renamed: [async_update_list] is
    invoked on it once, the handler ends as that invocation does, and no
    other coordinator changes. *)
Theorem rename_first_owner_wins (h : HomeAssistant) (call : ServiceCall.t)
    (z : Z) (name : PyVal) (reg : Dict.t string PyObj)
    (pre post : list PyObj) (r : ref) (c : ListonicDataUpdateCoordinator) :
  Dict.get ATTR_LIST_ID (ServiceCall.data call) = Some (PyInt z) →
  Dict.get ATTR_NAME (ServiceCall.data call) = Some name →
  hass_data h !! DOMAIN = Some reg →
  Dict.values reg = pre ++ ObjCoordinator r :: post →
  (∀ r', ObjCoordinator r' ∈ pre →
         has_data h r' = true ∧ holds_list h z r' = false) →
  store h !! r = Some c →
  holds_list h z r = true →
  ∃ h',
    async_rename_list call h =
      (match (async_update_list c (PyInt z) name).2 with
       | None => Return tt
       | Some err => Raise err
       end, h') ∧
    trace h' = trace h ++ [EvUpdateList r (PyInt z) name] ∧
    store h' !! r = Some (async_update_list c (PyInt z) name).1 ∧
    (∀ r', r' ≠ r → store h' !! r' = store h !! r').
Proof.
  intros Hid Hname Hreg Hvalues Hpre Hc Hholds.
  assert (async_rename_list call h =
          call_async_update_list r (PyInt z) name h) as ->.
  { unfold async_rename_list, getitem, hass_data_domain. run.
    rewrite Hid, Hname. simpl. rewrite Hreg, Hvalues.
    rewrite rename_loop_skip by done. simpl. run.
    unfold holds_list in Hholds. rewrite Hc in Hholds |- *.
    destruct (data c) as [d|]; [|done]. simpl. by rewrite Hholds. }
  unfold call_async_update_list. rewrite Hc.
  destruct (async_update_list c (PyInt z) name) as [c' err]. simpl.
  eexists. split; [reflexivity|]. simpl. split; [done|]. split.
  - apply list_lookup_insert_eq. by eapply lookup_lt_Some.
  - intros r' Hne. by apply list_lookup_insert_ne.
Qed.

(** X9: a live coordinator without data ([None]) that the loop reaches
    before any owner makes the handler raise [TypeError]: nothing is
    renamed and nothing is logged. *)
Theorem rename_raises_on_missing_data (h : HomeAssistant)
    (call : ServiceCall.t) (z : Z) (name : PyVal) (reg : Dict.t string PyObj)
    (pre post : list PyObj) (r : ref) (c : ListonicDataUpdateCoordinator) :
  Dict.get ATTR_LIST_ID (ServiceCall.data call) = Some (PyInt z) →
  Dict.get ATTR_NAME (ServiceCall.data call) = Some name →
  hass_data h !! DOMAIN = Some reg →
  Dict.values reg = pre ++ ObjCoordinator r :: post →
  (∀ r', ObjCoordinator r' ∈ pre →
         has_data h r' = true ∧ holds_list h z r' = false) →
  store h !! r = Some c →
  data c = None →
  ∃ msg,
    async_rename_list call h = (Raise (MkExn TypeError msg None), h).
Proof.
  intros Hid Hname Hreg Hvalues Hpre Hc Hdata.
  unfold async_rename_list, getitem, hass_data_domain. run.
  rewrite Hid, Hname. simpl. rewrite Hreg, Hvalues.
  rewrite rename_loop_skip by done. simpl. run.
  rewrite Hc, Hdata. simpl. by eexists.
Qed.

(** The three ways the loop ends, whatever the values: by raising without
    a change, by logging that the list was not found, or by one invocation
    of [async_update_list] on one coordinator. *)
Lemma rename_loop_outcomes (h : HomeAssistant) (list_id name : PyVal)
    (values : list PyObj) :
  let h' := (async_rename_list_loop list_id name values h).2 in
  h' = h ∨
  h' = emit (EvLog ERROR "List %s not found in any Listonic account"
               [list_id]) h ∨
  ∃ r c, h' = set_store (<[r := c]>) (emit (EvUpdateList r list_id name) h).
Proof.
  induction values as [|o values IH]; simpl.
  - right. by left.
  - destruct o as [r|v]; [|done]. run.
    destruct (store h !! r) as [c|] eqn:Hc; [|done].
    destruct (py_in list_id (data c)) as [[]|err]; simpl; [|done|by left].
    unfold call_async_update_list. rewrite Hc.
    destruct (async_update_list c list_id name) as [c' err]. simpl.
    right. right. by eexists _, _.
Qed.

(** What the schema hands to the handler. *)
Lemma schema_output (service_data out : Dict.t string PyVal) :
  SERVICE_RENAME_LIST_SCHEMA service_data = Return out →
  ∃ z s,
    Dict.get ATTR_LIST_ID out = Some (PyInt z) ∧ 0 ≤ z ∧
    Dict.get ATTR_NAME out = Some (PyStr s).
Proof.
  unfold SERVICE_RENAME_LIST_SCHEMA, vol.Schema. intros Hout.
  destruct (vol.validate_items _ service_data) as [[out'|]|] eqn:Hval;
    [|done|done].
  destruct (forallb _ _) eqn:Hreq; [|done]. injection Hout as ->.
  simpl in Hreq. apply andb_prop in Hreq as [Hid Hname].
  apply andb_prop in Hname as [Hname _].
  unfold Dict.contains in Hid, Hname.
  apply bool_decide_eq_true in Hid as [v Hid].
  apply bool_decide_eq_true in Hname as [n Hname].
  destruct (validate_items_get _ _ _ _ _ Hval Hid)
    as (f & v' & Hf & Hv & Hgetv).
  destruct (validate_items_get _ _ _ _ _ Hval Hname)
    as (g & n' & Hg & Hn & Hgetn).
  change (Some cv.positive_int = Some f) in Hf. injection Hf as <-.
  change (Some cv.string = Some g) in Hg. injection Hg as <-.
  apply positive_int_spec in Hv as (z & -> & Hz & _).
  apply string_spec in Hn as (s & ->).
  by exists z, s.
Qed.

(** The ways a service call ends: without a change, with the error logged,
    or with one invocation of [async_update_list]. *)
Lemma rename_call_outcomes (h : HomeAssistant)
    (service_data : Dict.t string PyVal) :
  let h' := (async_call_rename_list service_data h).2 in
  h' = h ∨
  (∃ z, 0 ≤ z ∧
     h' = emit (EvLog ERROR "List %s not found in any Listonic account"
                  [PyInt z]) h) ∨
  (∃ r c z s, 0 ≤ z ∧
     h' = set_store (<[r := c]>)
            (emit (EvUpdateList r (PyInt z) (PyStr s)) h)).
Proof.
  simpl. unfold async_call_rename_list. run.
  destruct (bool_decide _); [|by left]. simpl.
  destruct (SERVICE_RENAME_LIST_SCHEMA service_data) as [processed|err]
    eqn:Hschema; [|by left].
  destruct (schema_output _ _ Hschema) as (z & s & Hid & Hz & Hname).
  unfold async_rename_list, getitem, hass_data_domain. run.
  rewrite Hid, Hname. simpl.
  destruct (hass_data h !! DOMAIN) as [reg|]; [|by left].
  destruct (rename_loop_outcomes h (PyInt z) (PyStr s) (Dict.values reg))
    as [->|[->|(r & c & ->)]].
  - by left.
  - right. left. by exists z.
  - right. right. by exists r, c, z, s.
Qed.

(** X10: a call of the [rename_list] service, whatever its data and however
    it ends, leaves [hass.data] and the services as they are and neither
    adds nor drops a coordinator object. *)
Theorem rename_call_keeps_registry (h : HomeAssistant)
    (service_data : Dict.t string PyVal) :
  let h' := (async_call_rename_list service_data h).2 in
  hass_data h' = hass_data h ∧
  services h' = services h ∧
  length (store h') = length (store h).
Proof.
  simpl.
  destruct (rename_call_outcomes h service_data)
    as [->|[(z & _ & ->)|(r & c & z & s & _ & ->)]]; simpl;
    by rewrite ?length_insert.
Qed.

(** X11: a call of the service invokes [async_update_list] at most once, and
    only with an integer list id that is not negative and with a string as
    name; the only other event it can cause is the error log for a list
    that was not found. *)
Theorem rename_call_events (h : HomeAssistant)
    (service_data : Dict.t string PyVal) :
  ∃ events,
    trace (async_call_rename_list service_data h).2 = trace h ++ events ∧
    (events = [] ∨
     (∃ z, 0 ≤ z ∧
        events = [EvLog ERROR "List %s not found in any Listonic account"
                    [PyInt z]]) ∨
     (∃ r z s, 0 ≤ z ∧ events = [EvUpdateList r (PyInt z) (PyStr s)])).
Proof.
  destruct (rename_call_outcomes h service_data)
    as [->|[(z & Hz & ->)|(r & c & z & s & Hz & ->)]]; simpl.
  - exists []. split; [by rewrite app_nil_r|by left].
  - eexists. split; [done|]. right. left. by exists z.
  - eexists. split; [done|]. right. right. by exists r, z, s.
Qed.

(** The schema keeps the keys of the data, in their order, and knows each
    of them. *)
Lemma validate_items_keys (schema : list (string * vol.Validator))
    (d out : Dict.t string PyVal) :
  vol.validate_items schema d = Return (Some out) →
  Dict.keys out = Dict.keys d ∧
  ∀ k, k ∈ Dict.keys d → is_Some (Dict.get k schema).
Proof.
  revert out. induction d as [|[k0 v0] d IH]; intros out Hval; simpl in Hval.
  - injection Hval as <-. split; [done|]. by intros k ?%not_elem_of_nil.
  - destruct (Dict.get k0 schema) as [validator|] eqn:Hschema;
      [|by destruct (vol.validate_items schema d)].
    destruct (validator v0) as [v0'|err];
      [|destruct (is_Invalid err); [|done];
        by destruct (vol.validate_items schema d)].
    destruct (vol.validate_items schema d) as [[out'|]|]; [|done|done].
    simpl in Hval. injection Hval as <-.
    destruct (IH out' eq_refl) as [Hkeys Hknown].
    unfold Dict.keys in *. rewrite !fmap_cons. simpl.
    split; [by f_equal|].
    intros k [->|Hk]%elem_of_cons; [by rewrite Hschema|by apply Hknown].
Qed.

(** Validated data pass again unchanged when every validator leaves its
    own results as they are. *)
Lemma validate_items_fixed (schema : list (string * vol.Validator))
    (d out : Dict.t string PyVal) :
  (∀ k f v v',
     Dict.get k schema = Some f → f v = Return v' → f v' = Return v') →
  vol.validate_items schema d = Return (Some out) →
  vol.validate_items schema out = Return (Some out).
Proof.
  intros Hfixed. revert out.
  induction d as [|[k0 v0] d IH]; intros out Hval; simpl in Hval.
  - by injection Hval as <-.
  - destruct (Dict.get k0 schema) as [validator|] eqn:Hschema;
      [|by destruct (vol.validate_items schema d)].
    destruct (validator v0) as [v0'|err] eqn:Hv0;
      [|destruct (is_Invalid err); [|done];
        by destruct (vol.validate_items schema d)].
    destruct (vol.validate_items schema d) as [[out'|]|]; [|done|done].
    simpl in Hval. injection Hval as <-. simpl. rewrite Hschema.
    rewrite (Hfixed _ _ _ _ Hschema Hv0).
    by rewrite (IH out' eq_refl).
Qed.

(** X12: the schema accepts only data that have both keys [list_id] and
    [name] and no other key, and the validated data have the keys of the
    data given, in the same order. *)
Theorem schema_requires_exactly_its_keys (service_data out : Dict.t string PyVal) :
  SERVICE_RENAME_LIST_SCHEMA service_data = Return out →
  Dict.keys out = Dict.keys service_data ∧
  ATTR_LIST_ID ∈ Dict.keys service_data ∧
  ATTR_NAME ∈ Dict.keys service_data ∧
  (∀ k, k ∈ Dict.keys service_data → k = ATTR_LIST_ID ∨ k = ATTR_NAME).
Proof.
  unfold SERVICE_RENAME_LIST_SCHEMA, vol.Schema. intros Hout.
  destruct (vol.validate_items _ service_data) as [[out'|]|] eqn:Hval;
    [|done|done].
  destruct (forallb _ _) eqn:Hreq; [|done]. injection Hout as ->.
  simpl in Hreq. apply andb_prop in Hreq as [Hid Hname].
  apply andb_prop in Hname as [Hname _].
  destruct (validate_items_keys _ _ _ Hval) as [Hkeys Hknown].
  split_and!; [done|by apply dict_contains_keys..|].
  intros k [f Hf]%Hknown. simpl in Hf.
  destruct (decide (k = ATTR_LIST_ID)); [by left|].
  destruct (decide (k = ATTR_NAME)); [by right|done].
Qed.

(** X13: validated data are a fixed point of the schema: what it has
    accepted and coerced, it accepts again and leaves as it is. *)
Theorem schema_idempotent (service_data out : Dict.t string PyVal) :
  SERVICE_RENAME_LIST_SCHEMA service_data = Return out →
  SERVICE_RENAME_LIST_SCHEMA out = Return out.
Proof.
  unfold SERVICE_RENAME_LIST_SCHEMA, vol.Schema. intros Hout.
  destruct (vol.validate_items _ service_data) as [[out'|]|] eqn:Hval;
    [|done|done].
  destruct (forallb _ _) eqn:Hreq; [|done]. injection Hout as ->.
  destruct (validate_items_keys _ _ _ Hval) as [Hkeys _].
  rewrite (validate_items_fixed _ service_data out).
  - simpl in Hreq |- *. apply andb_prop in Hreq as [Hid Hname].
    apply andb_prop in Hname as [Hname _].
    apply dict_contains_keys in Hid, Hname. rewrite <-Hkeys in Hid, Hname.
    apply dict_contains_keys in Hid, Hname. by rewrite Hid, Hname.
  - intros k f v v' Hf Hv. simpl in Hf.
    destruct (decide (k = ATTR_LIST_ID)).
    + injection Hf as <-. apply positive_int_spec in Hv as (z & -> & Hz & _).
      unfold cv.positive_int, vol.All. simpl. by rewrite decide_False by lia.
    + destruct (decide (k = ATTR_NAME)); [|done].
      injection Hf as <-. by apply string_spec in Hv as (s & ->).
  - done.
Qed.

(** X14: the coordinator that a set-up leaves in [hass.data] is the object
    that [entry.runtime_data] refers to: after a set-up that succeeds, the
    options listener, run on the entry with its options changed, gives the
    coordinator registered under the entry id the interval of the new
    options, or the default, when that interval is within the range of
    [timedelta]. *)
Theorem options_update_reaches_registered_coordinator (env : SetupEnv)
    (h h' : HomeAssistant) (e e' : ConfigEntry) (opts : gmap string Z) :
  let new_interval :=
    default DEFAULT_SCAN_INTERVAL (opts !! CONF_SCAN_INTERVAL) in
  async_setup_entry env (h, e) = (Return true, (h', e')) →
  timedelta_in_range new_interval →
  ∃ h'' r c,
    _async_update_listener (h', set_options opts e')
      = (Return tt, (h'', set_options opts e')) ∧
    registered_coordinator h'' (entry_id e) = Some (ObjCoordinator r) ∧
    store h'' !! r = Some c ∧
    update_interval c = {| total_seconds := new_interval |}.
Proof.
  intros new_interval Hrun Hrange.
  destruct (setup_cases env h e)
    as (h1 & _ & _ & [[_ [err Herr]]|(r & [c0 Hr] & Hstate & _)]).
  { rewrite Hrun in Herr. done. }
  rewrite Hrun in Hstate. simpl in Hstate. injection Hstate as -> ->.
  assert (store (registered_state (entry_id e) r h1) = store h1) as Hstore.
  { unfold registered_state. by destruct (bool_decide _). }
  assert (registered_coordinator (registered_state (entry_id e) r h1)
            (entry_id e) = Some (ObjCoordinator r)) as Hreg.
  { unfold registered_state, registered_coordinator, async_register,
      store_coordinator. simpl.
    destruct (bool_decide (_ ∈ services h1)); simpl;
      rewrite lookup_insert_eq; simpl; by rewrite dict_get_set. }
  unfold _async_update_listener, timedelta_of_seconds. run.
  change (scan_interval_of (set_options opts (set_runtime_data (Some r) e)))
    with new_interval.
  rewrite decide_True by done. simpl.
  eexists _, r, _. split; [reflexivity|]. simpl.
  rewrite Hstore, Hr. split; [exact Hreg|]. split.
  - apply list_lookup_insert_eq. by eapply lookup_lt_Some.
  - done.
Qed.

End integration_more_properties.

(** ** Further properties of [check_credentials.py] *)

Module check_credentials_more_properties.
Import check_credentials.

Section script_more_properties.
Context `{Re}.
Variable net : Net.

(** The extracted credentials equal the current ones exactly when
    [const.py] assigns each of the three variables, and assigns it the
    extracted value. *)
Lemma credentials_unchanged_iff (a b c content : string) :
  dict_eqb [("client_id", a); ("client_secret", b); ("redirect_uri", c)]
    (current_credentials_loop content VARIABLES []) = true ↔
  assigned "CLIENT_ID" content = Some a ∧
  assigned "CLIENT_SECRET" content = Some b ∧
  assigned "REDIRECT_URI" content = Some c.
Proof.
  unfold assigned, VARIABLES. simpl.
  destruct (re_search (assignment_pattern "CLIENT_ID") true content)
    as [m1|]; simpl;
  destruct (re_search (assignment_pattern "CLIENT_SECRET") true content)
    as [m2|]; simpl;
  destruct (re_search (assignment_pattern "REDIRECT_URI") true content)
    as [m3|]; simpl.
  all: try generalize (group 1 m1); try generalize (group 1 m2);
    try generalize (group 1 m3); intros.
  all: unfold dict_eqb; simpl.
  all: repeat case_bool_decide; simpl;
    (split; [intros ?; try done; split_and!; congruence
            |intros (? & ? & ?); try done; congruence]).
Qed.

#[local] Arguments current_credentials_loop : simpl never.
#[local] Arguments update_credentials_loop : simpl never.
#[local] Arguments dict_eqb : simpl never.

Lemma get_app_js_url_result (w w0 : World) :
  get_app_js_url net w = ((get_app_js_url net w0).1, w).
Proof.
  unfold get_app_js_url. run.
  destruct (get_text net WEBAPP_URL) as [text|err]; simpl; [|done].
  by destruct (re_search _ _ _).
Qed.


(** X16: once credentials are extracted from the bundle and [const.py]
    exists, [main] returns 0 exactly when [const.py] assigns all three of
    [CLIENT_ID], [CLIENT_SECRET] and [REDIRECT_URI] and assigns them the
    extracted values; otherwise it returns 2, unless [re.sub] raises in the
    update, and then [main] ends with that exception: a [const.py] that
    lacks one of the three counts as changed. *)
Theorem main_unchanged_iff (w : World) (url js content : string)
    (m : list string) :
  let new_credentials :=
    [("client_id", group 1 m); ("client_secret", group 2 m);
     ("redirect_uri", group 3 m)] in
  (get_app_js_url net w).1 = Return (Some url) →
  get_text net url = Return js →
  re_search CREDENTIALS_PATTERN false js = Some m →
  const_file w = Some content →
  ((main net w).1 = Return 0 ↔
   assigned "CLIENT_ID" content = Some (group 1 m) ∧
   assigned "CLIENT_SECRET" content = Some (group 2 m) ∧
   assigned "REDIRECT_URI" content = Some (group 3 m)) ∧
  ((main net w).1 = Return 0 ∨
   ((main net w).1 = Return 2 ∧
    ∃ content',
      update_credentials_loop new_credentials VARIABLES content
        = Return content') ∨
   (∃ err,
      (main net w).1 = Raise err ∧
      update_credentials_loop new_credentials VARIABLES content = Raise err)).
Proof.
  intros new_credentials Hurl Hjs Hm Hcontent. subst new_credentials.
  rewrite <-credentials_unchanged_iff.
  unfold main, print.
  unfold mbind, M_bind, bind, modify. simpl.
  rewrite (get_app_js_url_result _ w), Hurl. run.
  rewrite Hjs. simpl. unfold extract_credentials. rewrite Hm.
  unfold item. simpl.
  unfold get_current_credentials, update_credentials, read_text,
    write_text. run.
  rewrite Hcontent. simpl.
  destruct (dict_eqb _ _); simpl.
  { split; [done|by left]. }
  destruct (update_credentials_loop _ _ _) as [content'|err]; simpl.
  - split; [done|]. right. left. split; [done|by exists content'].
  - split; [done|]. right. right. by exists err.
Qed.

End script_more_properties.
End check_credentials_more_properties.

(** ** The further properties on the samples *)

Lemma setup_failure_registers_nothing_witness :
  ∃ err h' e',
    @async_setup_entry sample_const sample_api env_bad_credentials
      (two_accounts, third_entry) = (Raise err, (h', e')) ∧
    hass_data h' = hass_data two_accounts ∧
    services h' = services two_accounts ∧
    e' = third_entry.
Proof.
  eexists _, _, _. split; [reflexivity|].
  destruct (@setup_failure_registers_nothing sample_const sample_api env_bad_credentials two_accounts _ third_entry
              _ _ eq_refl eq_refl) as (Hdata & Hservices & _ & Hentry & _).
  by split_and!.
Defined.

Lemma setup_forward_failure_keeps_registration_witness :
  ∃ h' e' r,
    @async_setup_entry sample_const sample_api
      (env_forward_fails (MkExn (OtherException "ImportError") "todo" None))
      (hass_init, sample_entry)
      = (Raise (MkExn (OtherException "ImportError") "todo" None), (h', e')) ∧
    @registered_coordinator sample_const h' "entry-1" = Some (ObjCoordinator r) ∧
    ("listonic", "rename_list") ∈ services h'.
Proof.
  destruct (@setup_forward_failure_keeps_registration sample_const sample_api
              (env_forward_fails
                 (MkExn (OtherException "ImportError") "todo" None))
              hass_init sample_entry _ _ _ eq_refl eq_refl eq_refl)
    as (h' & e' & r & Hrun & Hreg & _ & _ & Hservice).
  by exists h', e', r.
Defined.

Lemma setup_preserves_other_accounts_witness :
  let h' := (@async_setup_entry sample_const sample_api sample_env
               (two_accounts, third_entry)).2.1 in
  store h' !! 0%nat = store two_accounts !! 0%nat ∧
  @registered_coordinator sample_const h' "entry-1"
    = Some (ObjCoordinator 0%nat) ∧
  ("listonic", "rename_list") ∈ services h'.
Proof.
  destruct (@setup_preserves_other_accounts sample_const sample_api sample_env two_accounts third_entry)
    as (Hstore & Hreg & _ & Hservices).
  split_and!.
  - by apply Hstore.
  - by rewrite Hreg.
  - apply Hservices. vm_compute. reflexivity.
Defined.

Lemma unload_unknown_entry_raises_witness :
  ∃ key,
    @async_unload_entry sample_const (Return true) (two_accounts, third_entry)
      = (Raise (MkExn KeyError key None), (two_accounts, third_entry)).
Proof.
  destruct (@unload_unknown_entry_raises sample_const two_accounts third_entry
              eq_refl) as (key & _ & Hrun).
  by exists key.
Defined.

Lemma unload_answers_as_platforms_witness :
  (@async_unload_entry sample_const (Return false)
     (two_accounts, sample_entry)).2 = (two_accounts, sample_entry).
Proof.
  destruct (@unload_answers_as_platforms sample_const (Return false)
              two_accounts sample_entry) as [_ Hsame].
  by apply Hsame.
Defined.

Lemma unload_preserves_other_accounts_witness :
  let h' := (@async_unload_entry sample_const (Return true)
               (two_accounts, sample_entry)).2.1 in
  store h' = store two_accounts ∧
  @registered_coordinator sample_const h' "entry-2"
    = Some (ObjCoordinator 1%nat).
Proof.
  destruct (@unload_preserves_other_accounts sample_const (Return true)
              two_accounts sample_entry) as (Hstore & _ & Hreg & _).
  split; [exact Hstore|]. by rewrite Hreg.
Defined.

Lemma setup_unload_round_trip_witness :
  ∃ h1 e1 h2,
    @async_setup_entry sample_const sample_api sample_env
      (two_accounts, third_entry) = (Return true, (h1, e1)) ∧
    @async_unload_entry sample_const (Return true) (h1, e1)
      = (Return true, (h2, e1)) ∧
    hass_data h2 = hass_data two_accounts ∧
    services h2 = services two_accounts.
Proof.
  exists (@async_setup_entry sample_const sample_api sample_env
            (two_accounts, third_entry)).2.1,
         (@async_setup_entry sample_const sample_api sample_env
            (two_accounts, third_entry)).2.2.
  assert (@registry_inv sample_const two_accounts) as Hinv.
  { apply (@registry_inv_reachable sample_const sample_api sample_builtins).
    apply (rtc_l _ _ one_account).
    - apply (@step_setup sample_const sample_api sample_builtins
               sample_env hass_init sample_entry).
    - apply rtc_once.
      apply (@step_setup sample_const sample_api sample_builtins
               sample_env one_account other_entry). }
  destruct (@setup_unload_round_trip sample_const sample_api
              sample_env two_accounts _ third_entry _ Hinv eq_refl eq_refl)
    as (h2 & Hunload & Hdata & Hservices).
  exists h2. split; [reflexivity|]. by split_and!.
Defined.

Lemma rename_first_owner_wins_witness :
  ∃ h',
    @async_rename_list sample_const sample_api
      (ServiceCall.mk [(ATTR_LIST_ID, PyInt 123); (ATTR_NAME, PyStr "Food")])
      twin_hass = (Return tt, h') ∧
    trace h' =
      trace twin_hass ++ [EvUpdateList 0%nat (PyInt 123) (PyStr "Food")] ∧
    store h' !! 1%nat = store twin_hass !! 1%nat.
Proof.
  destruct (@rename_first_owner_wins sample_const sample_api twin_hass
              (ServiceCall.mk
                 [(ATTR_LIST_ID, PyInt 123); (ATTR_NAME, PyStr "Food")])
              123 (PyStr "Food")
              [("entry-1", ObjCoordinator 0%nat);
               ("entry-2", ObjCoordinator 1%nat)]
              [] [ObjCoordinator 1%nat] 0%nat sample_coordinator)
    as (h' & Hrun & Htrace & _ & Hother).
  - reflexivity.
  - reflexivity.
  - reflexivity.
  - reflexivity.
  - by intros r ?%not_elem_of_nil.
  - reflexivity.
  - reflexivity.
  - exists h'. split; [exact Hrun|]. split; [exact Htrace|].
    by apply Hother.
Defined.

Lemma rename_raises_on_missing_data_witness :
  ∃ msg,
    @async_rename_list sample_const sample_api
      (ServiceCall.mk [(ATTR_LIST_ID, PyInt 789); (ATTR_NAME, PyStr "Chemist")])
      stale_hass = (Raise (MkExn TypeError msg None), stale_hass).
Proof.
  apply (@rename_raises_on_missing_data sample_const sample_api stale_hass
           (ServiceCall.mk
              [(ATTR_LIST_ID, PyInt 789); (ATTR_NAME, PyStr "Chemist")])
           789 (PyStr "Chemist")
           [("entry-1", ObjCoordinator 0%nat);
            ("entry-2", ObjCoordinator 1%nat)]
           [] [ObjCoordinator 1%nat] 0%nat
           (set_data None sample_coordinator));
    try reflexivity.
  by intros r ?%not_elem_of_nil.
Defined.

Lemma schema_requires_exactly_its_keys_witness :
  Dict.keys [(ATTR_NAME, PyStr "Weekly"); (ATTR_LIST_ID, PyStr "42")]
    = [ATTR_NAME; ATTR_LIST_ID] ∧
  ∃ out,
    @SERVICE_RENAME_LIST_SCHEMA sample_builtins
      [(ATTR_NAME, PyStr "Weekly"); (ATTR_LIST_ID, PyStr "42")] = Return out ∧
    Dict.keys out = [ATTR_NAME; ATTR_LIST_ID].
Proof.
  split; [reflexivity|]. eexists. split; [reflexivity|].
  by destruct (@schema_requires_exactly_its_keys sample_builtins
                 [(ATTR_NAME, PyStr "Weekly"); (ATTR_LIST_ID, PyStr "42")]
                 _ eq_refl) as [-> _].
Defined.

Lemma schema_idempotent_witness :
  @SERVICE_RENAME_LIST_SCHEMA sample_builtins
    [(ATTR_LIST_ID, PyStr "42"); (ATTR_NAME, PyInt 7)]
    = Return [(ATTR_LIST_ID, PyInt 42); (ATTR_NAME, PyStr "7")] ∧
  @SERVICE_RENAME_LIST_SCHEMA sample_builtins
    [(ATTR_LIST_ID, PyInt 42); (ATTR_NAME, PyStr "7")]
    = Return [(ATTR_LIST_ID, PyInt 42); (ATTR_NAME, PyStr "7")].
Proof.
  split; [reflexivity|].
  apply (@schema_idempotent sample_builtins
           [(ATTR_LIST_ID, PyStr "42"); (ATTR_NAME, PyInt 7)]).
  reflexivity.
Defined.

Lemma options_update_reaches_registered_coordinator_witness :
  ∃ h1 e1 h2 r c,
    @async_setup_entry sample_const sample_api sample_env
      (hass_init, sample_entry) = (Return true, (h1, e1)) ∧
    @_async_update_listener sample_const
      (h1, set_options {[ "scan_interval" := 300 ]} e1)
      = (Return tt, (h2, set_options {[ "scan_interval" := 300 ]} e1)) ∧
    @registered_coordinator sample_const h2 "entry-1"
      = Some (ObjCoordinator r) ∧
    store h2 !! r = Some c ∧
    update_interval c = {| total_seconds := 300 |}.
Proof.
  exists one_account,
         (@async_setup_entry sample_const sample_api sample_env
            (hass_init, sample_entry)).2.2.
  destruct (@options_update_reaches_registered_coordinator sample_const
              sample_api sample_env hass_init one_account sample_entry
              (@async_setup_entry sample_const sample_api sample_env
                 (hass_init, sample_entry)).2.2
              {[ "scan_interval" := 300 ]} eq_refl)
    as (h2 & r & c & Hrun & Hreg & Hc & Hinterval).
  { vm_compute. split; discriminate. }
  exists h2, r, c. split; [reflexivity|]. by split_and!.
Defined.


Lemma main_unchanged_iff_witness :
  (@check_credentials.main check_credentials.sample_re
     (check_credentials.sample_net "bundle-v1")
     check_credentials.sample_world).1 = Return 0 ∧
  (@check_credentials.main check_credentials.sample_re
     (check_credentials.sample_net "bundle-v2")
     check_credentials.sample_world).1 ≠ Return 0 ∧
  ((@check_credentials.main check_credentials.sample_re
      (check_credentials.sample_net "bundle-v2")
      check_credentials.sample_world).1 = Return 0 ∨
   (@check_credentials.main check_credentials.sample_re
      (check_credentials.sample_net "bundle-v2")
      check_credentials.sample_world).1 = Return 2 ∨
   ∃ err,
     (@check_credentials.main check_credentials.sample_re
        (check_credentials.sample_net "bundle-v2")
        check_credentials.sample_world).1 = Raise err).
Proof.
  split; [|split].
  - apply (@check_credentials_more_properties.main_unchanged_iff
             check_credentials.sample_re
             (check_credentials.sample_net "bundle-v1")
             check_credentials.sample_world _ "bundle-v1" "const-v1" _
             eq_refl eq_refl eq_refl eq_refl).
    by split_and!.
  - intros Hzero.
    apply (@check_credentials_more_properties.main_unchanged_iff
             check_credentials.sample_re
             (check_credentials.sample_net "bundle-v2")
             check_credentials.sample_world _ "bundle-v2" "const-v1" _
             eq_refl eq_refl eq_refl eq_refl) in Hzero.
    by destruct Hzero as (_ & Hsecret & _).
  - destruct (@check_credentials_more_properties.main_unchanged_iff
                check_credentials.sample_re
                (check_credentials.sample_net "bundle-v2")
                check_credentials.sample_world _ "bundle-v2" "const-v1" _
                eq_refl eq_refl eq_refl eq_refl)
      as [_ [Hzero|[[Htwo _]|(err & Herr & _)]]].
    + by left.
    + right. by left.
    + right. right. by exists err.
Defined.
